(** * wagtail-footnotes: the footnote marker rewriter and its numbering rule

    A shallow embedding of [wagtail_footnotes/blocks.py] and of
    [wagtail_footnotes/templatetags/wagtailfootnotes_tags.py].

    - A Python [str] is a [string]; [str(n)] of an [int] is its decimal
      numeral.
    - A [dict] and a [defaultdict(list)] are [gmap string _]; indexing a
      [defaultdict] inserts the default, [.get] does not.
    - The page object is mutable and shared between the blocks of one render:
      pages live in a heap and the rendering context refers to them by
      address.
    - Exceptions are the left summand of [exn + A]. *)

From Stdlib Require Import String Ascii List Arith Lia Bool.
From Stdlib Require Import Numbers.DecimalString.
From Stdlib Require Numbers.DecimalNat Numbers.DecimalFacts.
From stdpp Require Import base option list gmap strings fin_maps.
Import ListNotations.

Local Open Scope string_scope.

(* [simpl] may unfold an append whose first argument starts with a
   constructor. *)
#[local] Arguments String.append !s1 s2.

(** ** Strings *)

(** The double quote character, code point 34. *)
Definition dquote : ascii := Ascii.ascii_of_nat 34.
Definition dq : string := String dquote EmptyString.

(** The line feed, the one character that [.] does not match. *)
Definition newline : ascii := Ascii.ascii_of_nat 10.

Definition is_newline (c : ascii) : bool := Ascii.eqb c newline.

(** [str(n)] for a non-negative [int]. *)
Definition str_of_nat (n : nat) : string :=
  NilZero.string_of_uint (Nat.to_uint n).

(** [s.startswith(p)], returning what follows the prefix. *)
Fixpoint strip_prefix (p s : string) : option string :=
  match p with
  | EmptyString => Some s
  | String a p' =>
      match s with
      | EmptyString => None
      | String b s' => if Ascii.eqb a b then strip_prefix p' s' else None
      end
  end.

(** [p in s] for two strings. *)
Fixpoint contains (p s : string) : bool :=
  match strip_prefix p s with
  | Some _ => true
  | None =>
      match s with
      | EmptyString => false
      | String _ s' => contains p s'
      end
  end.

(** [c in s] for a character. *)
Fixpoint has_char (c : ascii) (s : string) : bool :=
  match s with
  | EmptyString => false
  | String b s' => Ascii.eqb c b || has_char c s'
  end.

(** ** Exceptions *)

Inductive exn : Type :=
  | KeyError
  | ValidationError
  | AttributeError
  | ValueError.

Definition result (A : Type) : Type := (exn + A)%type.

Definition ok {A} (a : A) : result A := inr a.
Definition raise {A} (e : exn) : result A := inl e.

Definition bind {A B} (m : result A) (k : A -> result B) : result B :=
  match m with
  | inl e => inl e
  | inr a => k a
  end.

Notation "'do' x <- m ; k" := (bind m (fun x => k))
  (at level 10, x pattern, m at level 100, k at level 200, only parsing).

(** ** The marker pattern

    [FIND_FOOTNOTE_TAG] is compiled from a raw-string pattern made of three
    literals separated by two lazy [.*?], the first of them group 1:
    the opening [<footnote id=] with a double quote, group 1, a double quote
    with [>], a second [.*?], and the closing [</footnote>]. No flag is
    given, so [.] matches every character except the line feed. The matcher
    below is the backtracking search of [re] for that
    sequence, written with one combinator per construct and the rest of the
    pattern as a continuation. *)

Module Re.

Definition opener : string := "<footnote id=" ++ dq.
Definition middle : string := dq ++ ">".
Definition closer : string := "</footnote>".

(** A lazy [.*?] followed by the continuation [k]: try [k] here first and
    consume one more character (never a newline) only when [k] fails.
    Returns the text consumed together with the result of [k]. *)
Fixpoint lazy_dots {R} (k : string -> option R) (s : string)
  : option (string * R) :=
  match k s with
  | Some r => Some (EmptyString, r)
  | None =>
      match s with
      | EmptyString => None
      | String c s' =>
          if is_newline c then None
          else
            match lazy_dots k s' with
            | Some (g, r) => Some (String c g, r)
            | None => None
            end
      end
  end.

(** What follows group 1: the closing quote and [>], a lazy [.*?], the literal
    [</footnote>]. Returns the text after the match. *)
Definition after_group (s : string) : option string :=
  match strip_prefix middle s with
  | Some s' =>
      match lazy_dots (strip_prefix closer) s' with
      | Some (_, rest) => Some rest
      | None => None
      end
  | None => None
  end.

(** [FIND_FOOTNOTE_TAG.match(s)]: a match anchored at the start of [s],
    as [(match.group(1), text after the match)]. *)
Definition match_here (s : string) : option (string * string) :=
  match strip_prefix opener s with
  | Some s' => lazy_dots after_group s'
  | None => None
  end.

(** [FIND_FOOTNOTE_TAG.search(s) is not None]. *)
Fixpoint search (s : string) : bool :=
  match match_here s with
  | Some _ => true
  | None =>
      match s with
      | EmptyString => false
      | String _ s' => search s'
      end
  end.

(** [FIND_FOOTNOTE_TAG.sub(repl, s)] with a callable [repl] that reads
    group 1 of the match and may update a state or raise. Matches are
    taken left to right and do not overlap; the text between them is
    copied. Every step consumes a character, so [String.length s] steps
    are enough. *)
Fixpoint sub_from {S} (fuel : nat)
    (repl : string -> S -> result (string * S)) (s : string) (st : S)
  : result (string * S) :=
  match s with
  | EmptyString => ok (EmptyString, st)
  | String c s' =>
      match fuel with
      | O => ok (s, st)
      | Datatypes.S fuel' =>
          match match_here s with
          | Some (g1, rest) =>
              do (out, st1) <- repl g1 st;
              do (tl, st2) <- sub_from fuel' repl rest st1;
              ok (out ++ tl, st2)
          | None =>
              do (tl, st1) <- sub_from fuel' repl s' st;
              ok (String c tl, st1)
          end
      end
  end.

Definition sub {S} (repl : string -> S -> result (string * S))
    (s : string) (st : S) : result (string * S) :=
  sub_from (String.length s) repl s st.

(** [[m.group(1) for m in FIND_FOOTNOTE_TAG.finditer(s)]]. *)
Fixpoint findall_from (fuel : nat) (s : string) : list string :=
  match s with
  | EmptyString => []
  | String c s' =>
      match fuel with
      | O => []
      | Datatypes.S fuel' =>
          match match_here s with
          | Some (g1, rest) => g1 :: findall_from fuel' rest
          | None => findall_from fuel' s'
          end
      end
  end.

Definition findall (s : string) : list string :=
  findall_from (String.length s) s.

End Re.

(** ** Data model *)

(** A [Footnote] row of the page: primary key, identifier and text. *)
Record Footnote : Type := mkFootnote {
  pk : nat;
  uuid : string;
  text : string
}.

(** [a == b] on model instances read from the database: Django compares
    saved instances of one model by primary key. *)
Definition footnote_eqb (a b : Footnote) : bool := Nat.eqb (pk a) (pk b).

(** [x in l] and [l.index(x)] on a list of footnotes, both by [==]. *)
Definition list_contains (x : Footnote) (l : list Footnote) : bool :=
  existsb (fun y => footnote_eqb y x) l.

Fixpoint list_index (x : Footnote) (l : list Footnote) : result nat :=
  match l with
  | [] => raise ValueError
  | y :: l' =>
      if footnote_eqb y x then ok 0
      else do i <- list_index x l'; ok (S i)
  end.

(** A [defaultdict(list)] from identifiers to anchor ids. *)
Module DefaultDict.

(** [d[k]]: a missing key is first bound to a fresh empty list. *)
Definition getitem (d : gmap string (list string)) (k : string)
  : list string * gmap string (list string) :=
  match d !! k with
  | Some v => (v, d)
  | None => ([], <[k := []]> d)
  end.

(** [d.get(k, default)]: a plain lookup, the dict is left as it is. *)
Definition get (d : gmap string (list string)) (k : string)
    (default : list string)
  : list string * gmap string (list string) :=
  match d !! k with
  | Some v => (v, d)
  | None => (default, d)
  end.

(** [d[k].append(x)]. *)
Definition append (d : gmap string (list string)) (k x : string)
  : gmap string (list string) :=
  let '(v, d1) := getitem d k in <[k := (v ++ [x])%list]> d1.

End DefaultDict.

(** The page object: [page.footnotes.all()] and the two attributes that the
    rewriter attaches to it; [None] is an attribute that is not set. *)
Record Page : Type := mkPage {
  page_footnotes : list Footnote;
  footnotes_list : option (list Footnote);
  footnotes_references : option (gmap string (list string))
}.

Definition set_footnotes_list (l : list Footnote) (page : Page) : Page :=
  {| page_footnotes := page_footnotes page;
     footnotes_list := Some l;
     footnotes_references := footnotes_references page |}.

Definition set_footnotes_references (d : gmap string (list string))
    (page : Page) : Page :=
  {| page_footnotes := page_footnotes page;
     footnotes_list := footnotes_list page;
     footnotes_references := Some d |}.

(** Page objects live in a heap; an address that holds no page is an object
    of another class. *)
Definition addr : Type := nat.

(** A value of the rendering context: a reference to an object or a value
    that is not an object reference to a page (a string, a number, [None]). *)
Inductive CtxVal : Type :=
  | CRef (l : addr)
  | COther.

(** [Block.get_context] of wagtail:
    [context = parent_context or {}], then both [self] and [value] are bound
    to the block value. *)
Definition get_context (value : CtxVal)
    (parent_context : option (gmap string CtxVal)) : gmap string CtxVal :=
  let context := default ∅ parent_context in
  <["value" := value]> (<["self" := value]> context).

(** A [str] or Django's [SafeString]. *)
Inductive Html : Type :=
  | Str (s : string)
  | SafeString (s : string).

Definition html_text (h : Html) : string :=
  match h with Str s | SafeString s => s end.

Definition is_safe (h : Html) : bool :=
  match h with Str _ => false | SafeString _ => true end.

Definition mark_safe (h : Html) : Html := SafeString (html_text h).

(** ** The block *)

Module RichTextBlockWithFootnotes.

Record Block : Type := mkBlock {
  features : list string;
  footnotes : gmap string Footnote
}.

(** [__init__(features=...)]; [None] stands for the keyword left out. *)
Definition __init__ (kw_features : option (list string)) : Block :=
  let features0 :=
    match kw_features with
    | None | Some [] => []
    | Some l => l
    end in
  let features1 :=
    if bool_decide ("footnotes" ∈ features0) then features0
    else (features0 ++ ["footnotes"])%list in
  {| features := features1; footnotes := ∅ |}.

(** [{str(footnote.uuid): footnote for footnote in footnotes}]: a later
    footnote replaces an earlier one under the same key. *)
Definition footnotes_by_uuid (fs : list Footnote) : gmap string Footnote :=
  fold_left (fun d footnote => <[uuid footnote := footnote]> d) fs ∅.

Definition process_footnote (self : Block) (footnote_id : string)
    (page : Page) : result (nat * Page) :=
  do footnote <-
    match footnotes self !! footnote_id with
    | Some f => ok f
    | None => raise KeyError
    end;
  do l <-
    match footnotes_list page with
    | Some l => ok l
    | None => raise AttributeError
    end;
  let l1 := if list_contains footnote l then l else (l ++ [footnote])%list in
  do i <- list_index footnote l1;
  ok (i + 1, set_footnotes_list l1 page).

(** The closure [replace_tag(match)]; [page] is the object the closure
    holds, threaded as a state. [KeyError] is raised by the first statement
    of [process_footnote], before the page is touched. *)
Definition replace_tag (self : Block) (footnote_uuid : string)
    (page : Page) : result (string * Page) :=
  match process_footnote self footnote_uuid page with
  | inl KeyError | inl ValidationError => ok (EmptyString, page)
  | inl e => raise e
  | inr (index, page1) =>
      do d <-
        match footnotes_references page1 with
        | Some d => ok d
        | None => raise AttributeError
        end;
      let '(refs, d1) := DefaultDict.getitem d footnote_uuid in
      let link_id :=
        "footnote-source-" ++ str_of_nat index ++ "-"
          ++ str_of_nat (length refs) in
      let d2 := DefaultDict.append d1 footnote_uuid link_id in
      ok ("<a href=" ++ dq ++ "#footnote-" ++ str_of_nat index ++ dq
            ++ " id=" ++ dq ++ link_id ++ dq
            ++ "><sup>[" ++ str_of_nat index ++ "]</sup></a>",
          set_footnotes_references d2 page1)
  end.

(** [replace_footnote_tags(self, value, html, context)] over the heap of
    page objects. Returns the html, the block (its [footnotes] attribute is
    assigned) and the heap. *)
Definition replace_footnote_tags (self : Block) (value : CtxVal)
    (html : Html) (context : option (gmap string CtxVal))
    (heap : gmap addr Page) : result (Html * Block * gmap addr Page) :=
  let new_context :=
    match context with
    | None => get_context value None
    | Some c => get_context value (Some c)
    end in
  let found :=
    match new_context !! "page" with
    | Some (CRef l) =>
        match heap !! l with Some page => Some (l, page) | None => None end
    | _ => None
    end in
  match found with
  | None => ok (html, self, heap)
  | Some (l, page) =>
      let page1 :=
        match footnotes_list page with
        | Some _ => page
        | None => set_footnotes_list [] page
        end in
      let page2 :=
        match footnotes_references page1 with
        | Some _ => page1
        | None => set_footnotes_references ∅ page1
        end in
      let self1 :=
        {| features := features self;
           footnotes := footnotes_by_uuid (page_footnotes page2) |} in
      do (out, page3) <- Re.sub (replace_tag self1) (html_text html) page2;
      ok (mark_safe (Str out), self1, <[l := page3]> heap)
  end.

End RichTextBlockWithFootnotes.

Import RichTextBlockWithFootnotes.

(** ** The template filter *)

(** The object a template passes to the filter: a page, or anything else. *)
Inductive TemplateValue : Type :=
  | TPage (page : Page)
  | TOther.

(** [get_reference_ids(value, footnote_uuid)], returning the list and the
    value as the call leaves it. *)
Definition get_reference_ids (value : TemplateValue) (footnote_uuid : string)
  : list string * TemplateValue :=
  match value with
  | TPage page =>
      match footnotes_references page with
      | Some d =>
          let '(ids, d1) := DefaultDict.get d footnote_uuid [] in
          (ids, TPage (set_footnotes_references d1 page))
      | None => ([], value)
      end
  | TOther => ([], value)
  end.

(** ** Vocabulary of the statements *)

(** The anchor id and the anchor of the external interface, for a display
    index and an occurrence number. *)
Definition anchor_id (index occurrence : nat) : string :=
  "footnote-source-" ++ str_of_nat index ++ "-" ++ str_of_nat occurrence.

Definition anchor (index occurrence : nat) : string :=
  "<a href=" ++ dq ++ "#footnote-" ++ str_of_nat index ++ dq ++ " id=" ++ dq
    ++ anchor_id index occurrence ++ dq ++ "><sup>[" ++ str_of_nat index
    ++ "]</sup></a>".

(** The marker tag for an identifier and a label. *)
Definition marker (identifier label : string) : string :=
  Re.opener ++ identifier ++ Re.middle ++ label ++ Re.closer.

(** [s] has a substring in the language of the pattern: a marker whose
    identifier and label are free of line feeds. *)
Definition has_marker (s : string) : Prop :=
  exists a identifier label b,
    s = a ++ marker identifier label ++ b
    /\ has_char newline identifier = false
    /\ has_char newline label = false.

(** The ordered footnote list and the anchor ids of an identifier, reading
    an attribute that is not set as empty. *)
Definition list_of (page : Page) : list Footnote :=
  default [] (footnotes_list page).

Definition references_of (page : Page) : gmap string (list string) :=
  default ∅ (footnotes_references page).

Definition ids_of (page : Page) (footnote_uuid : string) : list string :=
  default [] (references_of page !! footnote_uuid).

(** A callback run on a sequence of identifiers in order, the state
    threaded through and the first exception ending the run. *)
Fixpoint run_calls {S A} (f : string -> S -> result (A * S))
    (ids : list string) (st : S) : result (list A * S) :=
  match ids with
  | [] => ok ([], st)
  | footnote_uuid :: ids' =>
      do (out, st1) <- f footnote_uuid st;
      do (outs, st2) <- run_calls f ids' st1;
      ok (out :: outs, st2)
  end.

(** The calls of [replace_tag] that a substitution makes, one per match on
    its group 1, and the calls of [process_footnote] for a sequence of
    identifiers. *)
Definition replace_tags (self : Block) (ids : list string) (page : Page)
  : result (list string * Page) :=
  run_calls (replace_tag self) ids page.

Definition process_footnotes (self : Block) (ids : list string) (page : Page)
  : result (list nat * Page) :=
  run_calls (process_footnote self) ids page.

(** The text with its matches replaced, in order, by the given strings. *)
Fixpoint splice_from (fuel : nat) (s : string) (outs : list string) : string :=
  match s with
  | EmptyString => EmptyString
  | String c s' =>
      match fuel with
      | O => s
      | Datatypes.S fuel' =>
          match Re.match_here s with
          | Some (_, rest) =>
              match outs with
              | out :: outs' => out ++ splice_from fuel' rest outs'
              | [] => splice_from fuel' rest []
              end
          | None => String c (splice_from fuel' s' outs)
          end
      end
  end.

Definition splice (s : string) (outs : list string) : string :=
  splice_from (String.length s) s outs.

(** [i] is the first position of the list that holds a footnote equal to
    [f]: the value of [l.index(f)]. *)
Definition first_position (f : Footnote) (l : list Footnote) (i : nat) : Prop :=
  (exists g, l !! i = Some g /\ footnote_eqb g f = true)
  /\ forall j g, j < i -> l !! j = Some g -> footnote_eqb g f = false.

(** The page once the two attributes are attached where they were not set. *)
Definition with_attributes (page : Page) : Page :=
  {| page_footnotes := page_footnotes page;
     footnotes_list := Some (list_of page);
     footnotes_references := Some (references_of page) |}.

(** The context gives no page: it is [None], has no [page] entry, or the
    entry is not a page object. *)
Definition no_page (context : option (gmap string CtxVal))
    (heap : gmap addr Page) : Prop :=
  forall ctx l,
    context = Some ctx -> ctx !! "page" = Some (CRef l) -> heap !! l = None.

(** The anchor of the first reference to the first footnote of a page. *)
Definition first_anchor : string :=
  "<a href=" ++ dq ++ "#footnote-1" ++ dq ++ " id=" ++ dq
    ++ "footnote-source-1-0" ++ dq ++ "><sup>[1]</sup></a>".

(** The outputs of a run that belong to the calls on one identifier. *)
Fixpoint outputs_for (footnote_uuid : string) (ids outs : list string)
  : list string :=
  match ids, outs with
  | id :: ids', out :: outs' =>
      if String.eqb id footnote_uuid
      then out :: outputs_for footnote_uuid ids' outs'
      else outputs_for footnote_uuid ids' outs'
  | _, _ => []
  end.

(** [ids.count(footnote_uuid)]. *)
Definition occurrences (footnote_uuid : string) (ids : list string) : nat :=
  length (filter (fun id => id = footnote_uuid) ids).

(** ** Fixtures of the test suite *)

Definition uuid1 : string := "f291a4b7-5ac5-4030-b341-b1993efb2ad2".
Definition fn1 : Footnote := mkFootnote 7 uuid1 "This is a footnote".
Definition html1 : string :=
  "<p>This is a paragraph with a footnote. " ++ marker uuid1 "[f291a4]"
    ++ "</p>".
Definition page0 : Page := mkPage [fn1] None None.
Definition heap0 : gmap addr Page := {[ 1 := page0 ]}.
Definition ctx0 : gmap string CtxVal := {[ "page" := CRef 1 ]}.

(** Two footnotes created in the order [fn_b], [fn_a] and referenced in the
    order [fn_a], [fn_b]. *)
Definition fn_a : Footnote := mkFootnote 9 "aaaa" "first in the text".
Definition fn_b : Footnote := mkFootnote 3 "bbbb" "second in the text".
Definition page_ab : Page := mkPage [fn_b; fn_a] (Some []) (Some ∅).
Definition block_ab : Block :=
  {| features := ["footnotes"]; footnotes := footnotes_by_uuid [fn_b; fn_a] |}.
Definition block1 : Block :=
  {| features := ["footnotes"]; footnotes := footnotes_by_uuid [fn1] |}.

(** The first test page after a render with two references to its
    footnote. *)
Definition refs_twice : gmap string (list string) :=
  {[ uuid1 := ["footnote-source-1-0"; "footnote-source-1-1"] ]}.
Definition page_twice : Page := mkPage [fn1] (Some [fn1]) (Some refs_twice).

(** ** Rendering *)

(** [render] and [render_basic] call the parent class, wagtail's
    [RichTextBlock]: whether a template is configured for the value and the
    context, the html of the template, and the html of the basic rendering.
    The parent reads the value, the context and the pages; it does not write
    them. *)
Section Render.
Variable get_template :
  CtxVal -> option (gmap string CtxVal) -> gmap addr Page -> bool.
Variable super_render :
  CtxVal -> option (gmap string CtxVal) -> gmap addr Page -> Html.
Variable super_render_basic :
  CtxVal -> option (gmap string CtxVal) -> gmap addr Page -> Html.

Definition render_basic (self : Block) (value : CtxVal)
    (context : option (gmap string CtxVal)) (heap : gmap addr Page)
  : result (Html * Block * gmap addr Page) :=
  let html := super_render_basic value context heap in
  replace_footnote_tags self value html context heap.

Definition render (self : Block) (value : CtxVal)
    (context : option (gmap string CtxVal)) (heap : gmap addr Page)
  : result (Html * Block * gmap addr Page) :=
  if negb (get_template value context heap)
  then render_basic self value context heap
  else
    let html := super_render value context heap in
    replace_footnote_tags self value html context heap.

End Render.

(** ** Vocabulary of the further properties *)

(** Every list of anchor ids of the page belongs to an identifier of the
    dictionary whose footnote is in the page's list, and holds the anchor
    ids of that footnote's index numbered from 0. *)
Definition numbered (fns : gmap string Footnote) (page : Page) : Prop :=
  forall U ids,
    references_of page !! U = Some ids ->
    exists f i,
      fns !! U = Some f
      /\ list_index f (list_of page) = ok i
      /\ ids = map (anchor_id (i + 1)) (seq 0 (length ids)).

(** Every footnote of the page's list is one of the page's footnotes and
    has an anchor id recorded under its identifier. *)
Definition listed_are_referenced (page : Page) : Prop :=
  forall f,
    f ∈ list_of page ->
    f ∈ page_footnotes page /\ ids_of page (uuid f) <> [].

(** No anchor id occurs twice on the page, under one identifier or two. *)
Definition ids_unique (page : Page) : Prop :=
  forall U V i j x,
    ids_of page U !! i = Some x ->
    ids_of page V !! j = Some x ->
    U = V /\ i = j.

(** ** Html as texts and markers *)







(** Two footnotes that share an identifier, the older one first. *)
Definition fn_old : Footnote := mkFootnote 4 "aaaa" "older".

(** ** Strings: append, prefixes and substrings *)

Lemma append_nil_r (s : string) : s ++ EmptyString = s.
Proof. induction s as [|c s IH]; simpl; [reflexivity | now rewrite IH]. Qed.

Lemma append_assoc (a b c : string) : (a ++ b) ++ c = a ++ (b ++ c).
Proof. induction a as [|x a IH]; simpl; [reflexivity | now rewrite IH]. Qed.

Lemma length_append (a b : string) :
  String.length (a ++ b) = String.length a + String.length b.
Proof. induction a as [|x a IH]; simpl; [reflexivity | now rewrite IH]. Qed.

Lemma strip_prefix_app (p s : string) : strip_prefix p (p ++ s) = Some s.
Proof.
  induction p as [|c p IH]; simpl; [reflexivity|].
  now rewrite Ascii.eqb_refl.
Qed.

Lemma strip_prefix_Some (p s r : string) :
  strip_prefix p s = Some r -> s = p ++ r.
Proof.
  revert s. induction p as [|c p IH]; simpl; intros s H.
  - now inversion H.
  - destruct s as [|b s]; [discriminate|].
    destruct (Ascii.eqb_spec c b) as [->|]; [|discriminate].
    now rewrite (IH _ H).
Qed.

Lemma contains_eq (p s : string) :
  contains p s =
    match strip_prefix p s with
    | Some _ => true
    | None =>
        match s with
        | EmptyString => false
        | String _ s' => contains p s'
        end
    end.
Proof. destruct s; reflexivity. Qed.

Lemma contains_app (p a b : string) : contains p (a ++ p ++ b) = true.
Proof.
  induction a as [|c a IH]; simpl.
  - now rewrite contains_eq, strip_prefix_app.
  - rewrite IH. now destruct (strip_prefix p (String c (a ++ p ++ b))).
Qed.

Lemma contains_false_suffix (p a b : string) :
  contains p (a ++ b) = false -> strip_prefix p b = None.
Proof.
  induction a as [|c a IH]; simpl; intros H.
  - rewrite contains_eq in H. destruct (strip_prefix p b); congruence.
  - destruct (strip_prefix p (String c (a ++ b))); [discriminate|].
    now apply IH.
Qed.

(** A string whose first character does not come back later in it cannot
    straddle the end of a text that does not contain it. *)
Lemma prefix_past_char (c : ascii) (q x y r : string) :
  has_char c q = false -> x ++ String c y = q ++ r ->
  exists z, x = q ++ z.
Proof.
  revert x. induction q as [|d q IH]; simpl; intros x Hc E.
  - now exists x.
  - apply orb_false_elim in Hc as [Hcd Hq].
    destruct x as [|e x]; simpl in E.
    + inversion E; subst. now rewrite Ascii.eqb_refl in Hcd.
    + inversion E; subst. destruct (IH x Hq H1) as [z ->]. now exists z.
Qed.

Lemma strip_prefix_straddle (c : ascii) (q a b t : string) :
  has_char c q = false ->
  contains (String c q) (a ++ b) = false ->
  b <> EmptyString ->
  strip_prefix (String c q) (b ++ String c q ++ t) = None.
Proof.
  intros Hc Hn Hb.
  destruct (strip_prefix (String c q) (b ++ String c q ++ t)) as [r|] eqn:E;
    [|reflexivity].
  apply strip_prefix_Some in E.
  destruct b as [|e b]; [congruence|]. simpl in E. inversion E; subst e.
  destruct (prefix_past_char c q b (q ++ t) r Hc H1) as [z ->].
  exfalso.
  change (String c (q ++ z)) with (String c q ++ z) in Hn.
  now rewrite contains_app in Hn.
Qed.

(** ** The matcher finds exactly the markers *)

Lemma is_newline_has_char (c : ascii) (s : string) :
  has_char newline (String c s) = is_newline c || has_char newline s.
Proof. simpl. unfold is_newline. now rewrite Ascii.eqb_sym. Qed.

Section LazyDots.
Context {R : Type} (k : string -> option R).

Lemma lazy_dots_eq (s : string) :
  Re.lazy_dots k s =
    match k s with
    | Some r => Some (EmptyString, r)
    | None =>
        match s with
        | EmptyString => None
        | String c s' =>
            if is_newline c then None
            else
              match Re.lazy_dots k s' with
              | Some (g, r) => Some (String c g, r)
              | None => None
              end
        end
    end.
Proof. destruct s; reflexivity. Qed.

(** The lazy star stops at the first place where the rest of the pattern
    matches. *)
Lemma lazy_dots_first (g t : string) (r : R) :
  has_char newline g = false ->
  k t = Some r ->
  (forall a b, g = a ++ b -> b <> EmptyString -> k (b ++ t) = None) ->
  Re.lazy_dots k (g ++ t) = Some (g, r).
Proof.
  induction g as [|c g IH]; intros Hnl Hk Hfirst.
  - simpl. now rewrite lazy_dots_eq, Hk.
  - rewrite is_newline_has_char in Hnl.
    apply orb_false_elim in Hnl as [Hc Hg].
    rewrite lazy_dots_eq.
    rewrite (Hfirst EmptyString (String c g)) by (reflexivity || discriminate).
    simpl. rewrite Hc, IH; [reflexivity | assumption | assumption |].
    intros a b -> Hb. apply (Hfirst (String c a) b); [reflexivity | assumption].
Qed.

Lemma lazy_dots_sound (s g : string) (r : R) :
  Re.lazy_dots k s = Some (g, r) ->
  exists t, s = g ++ t /\ k t = Some r /\ has_char newline g = false.
Proof.
  revert g. induction s as [|c s IH]; intros g H; rewrite lazy_dots_eq in H.
  - destruct (k EmptyString) eqn:E; [|discriminate].
    inversion H; subst. now exists EmptyString.
  - destruct (k (String c s)) eqn:E.
    + inversion H; subst. now exists (String c s).
    + destruct (is_newline c) eqn:Hc; [discriminate|].
      destruct (Re.lazy_dots k s) as [[g' r']|] eqn:E'; [|discriminate].
      inversion H; subst.
      destruct (IH g' eq_refl) as (t & -> & Hk & Hg).
      exists t. rewrite is_newline_has_char, Hc, Hg. auto.
Qed.

Lemma lazy_dots_complete (g t : string) (r : R) :
  has_char newline g = false ->
  k t = Some r ->
  is_Some (Re.lazy_dots k (g ++ t)).
Proof.
  induction g as [|c g IH]; intros Hnl Hk.
  - simpl. rewrite lazy_dots_eq, Hk. eauto.
  - rewrite is_newline_has_char in Hnl.
    apply orb_false_elim in Hnl as [Hc Hg].
    rewrite lazy_dots_eq. destruct (k (String c g ++ t)); [eauto|].
    simpl. rewrite Hc. destruct (IH Hg Hk) as [[g' r'] ->]. eauto.
Qed.

End LazyDots.

Lemma marker_app (identifier label rest : string) :
  marker identifier label ++ rest =
    Re.opener ++ identifier ++ Re.middle ++ label ++ Re.closer ++ rest.
Proof. unfold marker. now rewrite !append_assoc. Qed.

Lemma after_group_sound (s rest : string) :
  Re.after_group s = Some rest ->
  exists label,
    s = Re.middle ++ label ++ Re.closer ++ rest
    /\ has_char newline label = false.
Proof.
  unfold Re.after_group. intros H.
  destruct (strip_prefix Re.middle s) as [s1|] eqn:E1; [|discriminate].
  destruct (Re.lazy_dots _ s1) as [[label r]|] eqn:E2; [|discriminate].
  inversion H; subst r.
  apply lazy_dots_sound in E2 as (t & -> & Hc & Hl).
  apply strip_prefix_Some in Hc as ->. apply strip_prefix_Some in E1 as ->.
  now exists label.
Qed.

Lemma match_here_sound (s g rest : string) :
  Re.match_here s = Some (g, rest) ->
  exists label,
    s = marker g label ++ rest
    /\ has_char newline g = false
    /\ has_char newline label = false.
Proof.
  unfold Re.match_here. intros H.
  destruct (strip_prefix Re.opener s) as [s1|] eqn:E1; [|discriminate].
  apply lazy_dots_sound in H as (t & -> & Hk & Hg).
  apply after_group_sound in Hk as (label & -> & Hl).
  apply strip_prefix_Some in E1 as ->.
  exists label. now rewrite marker_app.
Qed.

Lemma after_group_complete (label rest : string) :
  has_char newline label = false ->
  is_Some (Re.after_group (Re.middle ++ label ++ Re.closer ++ rest)).
Proof.
  intros Hl. unfold Re.after_group. rewrite strip_prefix_app.
  destruct (lazy_dots_complete (strip_prefix Re.closer) label
              (Re.closer ++ rest) rest Hl (strip_prefix_app _ _))
    as [[g r] ->].
  eauto.
Qed.

Lemma match_here_complete (identifier label rest : string) :
  has_char newline identifier = false ->
  has_char newline label = false ->
  is_Some (Re.match_here (marker identifier label ++ rest)).
Proof.
  intros Hi Hl. rewrite marker_app. unfold Re.match_here.
  rewrite strip_prefix_app.
  destruct (after_group_complete label rest Hl) as [r Hr].
  exact (lazy_dots_complete Re.after_group identifier _ r Hi Hr).
Qed.

(** On a marker whose identifier does not contain the closing quote with
    [>] and whose label does not contain the closing tag, group 1 is the
    identifier and the match ends with the marker. *)
Lemma match_here_marker (identifier label rest : string) :
  has_char newline identifier = false ->
  contains Re.middle identifier = false ->
  has_char newline label = false ->
  contains Re.closer label = false ->
  Re.match_here (marker identifier label ++ rest) = Some (identifier, rest).
Proof.
  intros Hi Hmi Hl Hcl. rewrite marker_app. unfold Re.match_here.
  rewrite strip_prefix_app.
  assert (Hag : Re.after_group (Re.middle ++ label ++ Re.closer ++ rest)
                = Some rest).
  { unfold Re.after_group. rewrite strip_prefix_app.
    rewrite (lazy_dots_first (strip_prefix Re.closer) label
               (Re.closer ++ rest) rest); auto using strip_prefix_app.
    intros a b -> Hb.
    apply (strip_prefix_straddle _ _ a b rest); auto. }
  apply lazy_dots_first; auto.
  intros a b -> Hb. unfold Re.after_group.
  change Re.middle with (String dquote ">") in *.
  now rewrite (strip_prefix_straddle dquote ">" a b
                 (label ++ Re.closer ++ rest)).
Qed.

Lemma match_here_shorter (s g rest : string) :
  Re.match_here s = Some (g, rest) -> String.length rest < String.length s.
Proof.
  intros H. apply match_here_sound in H as (label & -> & _).
  rewrite marker_app, !length_append.
  change (String.length Re.opener) with 14. lia.
Qed.

Lemma search_eq (s : string) :
  Re.search s =
    match Re.match_here s with
    | Some _ => true
    | None =>
        match s with
        | EmptyString => false
        | String _ s' => Re.search s'
        end
    end.
Proof. destruct s; reflexivity. Qed.

(** [search] decides whether the text has a marker. *)
Lemma search_spec (s : string) : Re.search s = true <-> has_marker s.
Proof.
  split.
  - induction s as [|c s IH]; rewrite search_eq; intros H.
    + destruct (Re.match_here EmptyString) as [[g rest]|] eqn:E; [|discriminate].
      apply match_here_sound in E as (label & E & Hg & Hl).
      now exists EmptyString, g, label, rest.
    + destruct (Re.match_here (String c s)) as [[g rest]|] eqn:E.
      * apply match_here_sound in E as (label & E & Hg & Hl).
        now exists EmptyString, g, label, rest.
      * destruct (IH H) as (a & i & l & b & -> & Hi & Hl).
        now exists (String c a), i, l, b.
  - intros (a & i & l & b & -> & Hi & Hl).
    induction a as [|c a IH].
    + change (EmptyString ++ marker i l ++ b) with (marker i l ++ b).
      rewrite search_eq.
      now destruct (match_here_complete i l b Hi Hl) as [r ->].
    + change (String c a ++ marker i l ++ b)
        with (String c (a ++ marker i l ++ b)).
      rewrite search_eq, IH. now destruct (Re.match_here _).
Qed.

Lemma search_false (s : string) : Re.search s = false <-> ~ has_marker s.
Proof.
  rewrite <- search_spec. destruct (Re.search s); split; intros; congruence.
Qed.

(** ** The substitution *)

Section Sub.
Context {S : Type} (repl : string -> S -> result (string * S)).

(** More fuel than the length of the text changes nothing. *)
Lemma sub_from_fuel (n m : nat) (s : string) (st : S) :
  String.length s <= n -> String.length s <= m ->
  Re.sub_from n repl s st = Re.sub_from m repl s st.
Proof.
  revert m s st. induction n as [|n IH]; intros m s st Hn Hm;
    destruct s as [|c s]; simpl in Hn, Hm;
    try (destruct m; reflexivity); [lia|].
  destruct m as [|m]; [lia|]. simpl.
  { destruct (Re.match_here (String c s)) as [[g rest]|] eqn:E.
    + apply match_here_shorter in E. simpl in E.
      destruct (repl g st) as [e|[out st1]]; [reflexivity|]. simpl.
      now rewrite (IH m rest st1) by lia.
    + now rewrite (IH m s st) by lia. }
Qed.

Lemma sub_nil (st : S) : Re.sub repl EmptyString st = ok (EmptyString, st).
Proof. reflexivity. Qed.

(** No match at the first character: it is copied. *)
Lemma sub_skip (c : ascii) (s : string) (st : S) :
  Re.match_here (String c s) = None ->
  Re.sub repl (String c s) st =
    do (tl, st1) <- Re.sub repl s st; ok (String c tl, st1).
Proof. intros E. unfold Re.sub. simpl. now rewrite E. Qed.

(** A match at the start: [repl] is called on group 1 and the scan goes on
    after the match. *)
Lemma sub_match (s g rest : string) (st : S) :
  Re.match_here s = Some (g, rest) ->
  Re.sub repl s st =
    do (out, st1) <- repl g st;
    do (tl, st2) <- Re.sub repl rest st1;
    ok (out ++ tl, st2).
Proof.
  intros E. pose proof (match_here_shorter _ _ _ E) as Hlen.
  unfold Re.sub. destruct s as [|c s]; [simpl in Hlen; lia|].
  simpl. rewrite E. simpl in Hlen.
  destruct (repl g st) as [e|[out st1]]; [reflexivity|]. simpl.
  now rewrite (sub_from_fuel (String.length s) (String.length rest)) by lia.
Qed.

(** A text without markers is returned as it is and [repl] is not
    called. *)
Lemma sub_no_marker (s : string) (st : S) :
  Re.search s = false -> Re.sub repl s st = ok (s, st).
Proof.
  induction s as [|c s IH]; intros H; [reflexivity|].
  rewrite search_eq in H.
  destruct (Re.match_here (String c s)) eqn:E; [discriminate|].
  now rewrite sub_skip, IH.
Qed.

(** A text before the first opening tag is copied. *)
Lemma sub_before_marker (pre identifier label post : string) (st : S) :
  contains Re.opener pre = false ->
  Re.sub repl (pre ++ marker identifier label ++ post) st =
    do (tl, st1) <- Re.sub repl (marker identifier label ++ post) st;
    ok (pre ++ tl, st1).
Proof.
  induction pre as [|c pre IH]; intros H.
  - simpl. now destruct (Re.sub repl _ st) as [e|[tl st1]].
  - change (String c pre ++ marker identifier label ++ post)
      with (String c (pre ++ marker identifier label ++ post)).
    rewrite sub_skip.
    + rewrite IH.
      * now destruct (Re.sub repl (marker identifier label ++ post) st)
          as [e|[tl st1]].
      * rewrite contains_eq in H.
        now destruct (strip_prefix Re.opener (String c pre)).
    + unfold Re.match_here.
      change (String c (pre ++ marker identifier label ++ post))
        with (String c pre ++ marker identifier label ++ post).
      rewrite marker_app.
      change Re.opener with (String "<" ("footnote id=" ++ dq)) in *.
      now rewrite (strip_prefix_straddle "<" _ EmptyString (String c pre)).
Qed.

Lemma splice_from_fuel (n m : nat) (s : string) (outs : list string) :
  String.length s <= n -> String.length s <= m ->
  splice_from n s outs = splice_from m s outs.
Proof.
  revert m s outs. induction n as [|n IH]; intros m s outs Hn Hm;
    destruct s as [|c s]; simpl in Hn, Hm;
    try (destruct m; reflexivity); [lia|].
  destruct m as [|m]; [lia|]. simpl.
  { destruct (Re.match_here (String c s)) as [[g rest]|] eqn:E.
    + apply match_here_shorter in E. simpl in E.
      destruct outs; now rewrite (IH m rest) by lia.
    + now rewrite (IH m s outs) by lia. }
Qed.

Lemma findall_from_fuel (n m : nat) (s : string) :
  String.length s <= n -> String.length s <= m ->
  Re.findall_from n s = Re.findall_from m s.
Proof.
  revert m s. induction n as [|n IH]; intros m s Hn Hm;
    destruct s as [|c s]; simpl in Hn, Hm;
    try (destruct m; reflexivity); [lia|].
  destruct m as [|m]; [lia|]. simpl.
  { destruct (Re.match_here (String c s)) as [[g rest]|] eqn:E.
    + apply match_here_shorter in E. simpl in E.
      now rewrite (IH m rest) by lia.
    + now rewrite (IH m s) by lia. }
Qed.

(** The substitution calls [repl] once per match, in order, on group 1,
    and splices the results into the text. *)
Lemma sub_from_as_calls (n : nat) (s : string) (st : S) :
  String.length s <= n ->
  Re.sub_from n repl s st =
    do (outs, st1) <- run_calls repl (Re.findall_from n s) st;
    ok (splice_from n s outs, st1).
Proof.
  revert s st. induction n as [|n IH]; intros s st Hn;
    destruct s as [|c s]; try reflexivity; simpl in Hn; try lia.
  simpl. destruct (Re.match_here (String c s)) as [[g rest]|] eqn:E.
  - apply match_here_shorter in E. simpl in E. simpl.
    destruct (repl g st) as [e|[out st1]]; [reflexivity|]. simpl.
    rewrite IH by lia.
    now destruct (run_calls repl _ st1) as [e|[outs st2]].
  - rewrite IH by lia.
    now destruct (run_calls repl _ st) as [e|[outs st1]].
Qed.

Lemma sub_as_calls (s : string) (st : S) :
  Re.sub repl s st =
    do (outs, st1) <- run_calls repl (Re.findall s) st;
    ok (splice s outs, st1).
Proof. apply sub_from_as_calls. lia. Qed.

End Sub.

(** ** Equality, membership and position of footnotes *)

Lemma footnote_eqb_refl (f : Footnote) : footnote_eqb f f = true.
Proof. apply Nat.eqb_refl. Qed.

Lemma footnote_eqb_pk (f g : Footnote) :
  footnote_eqb f g = true <-> pk f = pk g.
Proof. apply Nat.eqb_eq. Qed.

Lemma footnote_eqb_sym (f g : Footnote) : footnote_eqb f g = footnote_eqb g f.
Proof. apply Nat.eqb_sym. Qed.

Lemma footnote_eqb_trans (f g h : Footnote) :
  footnote_eqb f g = true -> footnote_eqb g h = true ->
  footnote_eqb f h = true.
Proof. rewrite !footnote_eqb_pk. congruence. Qed.


Lemma list_contains_pk (f : Footnote) (l : list Footnote) :
  list_contains f l = true <-> pk f ∈ map pk l.
Proof.
  unfold list_contains. induction l as [|g l IH]; simpl.
  - split; [discriminate | intros H; inversion H].
  - rewrite orb_true_iff, IH, footnote_eqb_pk, elem_of_cons.
    split; intros [?|?]; auto.
Qed.

Lemma list_index_first (f : Footnote) (l : list Footnote) (i : nat) :
  list_index f l = ok i <-> first_position f l i.
Proof.
  revert i. induction l as [|g l IH]; intros i; simpl.
  - split; [discriminate|]. intros [(h & Hh & _) _]. discriminate.
  - destruct (footnote_eqb g f) eqn:E.
    + split.
      * intros [= <-]. split; [now exists g|]. intros j h Hj. lia.
      * intros [_ Hmin]. destruct i as [|i]; [reflexivity|].
        specialize (Hmin 0 g ltac:(lia) eq_refl).
        rewrite E in Hmin. discriminate.
    + destruct (list_index f l) as [e|i'] eqn:Ei; simpl.
      * split; [discriminate|]. intros [(h & Hh & Hhf) Hmin].
        destruct i as [|i]; [simpl in Hh; congruence|].
        assert (first_position f l i) as Hfp.
        { split; [now exists h|]. intros j k Hj Hk.
          apply (Hmin (S j) k); [lia | assumption]. }
        apply IH in Hfp. discriminate.
      * split.
        -- intros [= <-]. destruct (proj1 (IH i') eq_refl) as [(h & Hh & Hhf) Hmin].
           split; [now exists h|]. intros [|j] k Hj Hk.
           ++ simpl in Hk. congruence.
           ++ apply (Hmin j k); [lia | assumption].
        -- intros [(h & Hh & Hhf) Hmin].
           destruct i as [|i]; [simpl in Hh; congruence|].
           assert (first_position f l i) as Hfp.
           { split; [now exists h|]. intros j k Hj Hk.
             apply (Hmin (S j) k); [lia | assumption]. }
           apply IH in Hfp. now inversion Hfp.
Qed.

Lemma list_index_contains (f : Footnote) (l : list Footnote) :
  list_contains f l = true ->
  exists i, list_index f l = ok i /\ i < length l.
Proof.
  unfold list_contains. induction l as [|g l IH]; simpl; [discriminate|].
  destruct (footnote_eqb g f); simpl.
  - intros _. exists 0. split; [reflexivity | lia].
  - intros H. destruct (IH H) as (i & -> & Hi). exists (S i). split; [reflexivity | lia].
Qed.

Lemma list_index_ok_contains (f : Footnote) (l : list Footnote) (i : nat) :
  list_index f l = ok i -> list_contains f l = true.
Proof.
  unfold list_contains. revert i. induction l as [|g l IH]; intros i; simpl.
  - discriminate.
  - destruct (footnote_eqb g f); [reflexivity|]. simpl.
    destruct (list_index f l) eqn:E; [discriminate|]. intros _. eauto.
Qed.

(** The position of a footnote does not move when the list grows. *)
Lemma list_index_app_l (f : Footnote) (l l' : list Footnote) (i : nat) :
  list_index f l = ok i -> list_index f (l ++ l')%list = ok i.
Proof.
  revert i. induction l as [|g l IH]; intros i; simpl; [discriminate|].
  destruct (footnote_eqb g f); [auto|].
  destruct (list_index f l) eqn:E; [discriminate|].
  intros [= <-]. now rewrite (IH _ eq_refl).
Qed.

(** A footnote that is not in the list lands at its end. *)
Lemma list_index_new (f : Footnote) (l : list Footnote) :
  list_contains f l = false ->
  list_index f (l ++ [f])%list = ok (length l).
Proof.
  unfold list_contains. induction l as [|g l IH]; simpl.
  - now rewrite footnote_eqb_refl.
  - intros H. apply orb_false_elim in H as [-> H]. now rewrite (IH H).
Qed.

(** ** The numbering rule, one call *)

Lemma process_footnote_unknown (self : Block) (id : string) (page : Page) :
  footnotes self !! id = None ->
  process_footnote self id page = raise KeyError.
Proof. intros H. unfold process_footnote. now rewrite H. Qed.

Lemma process_footnote_present (self : Block) (id : string) (page : Page)
    (f : Footnote) (l : list Footnote) (i : nat) :
  footnotes self !! id = Some f ->
  footnotes_list page = Some l ->
  list_index f l = ok i ->
  process_footnote self id page = ok (i + 1, set_footnotes_list l page).
Proof.
  intros Hf Hl Hi. unfold process_footnote. rewrite Hf, Hl. simpl.
  now rewrite (list_index_ok_contains _ _ _ Hi), Hi.
Qed.

Lemma process_footnote_new (self : Block) (id : string) (page : Page)
    (f : Footnote) (l : list Footnote) :
  footnotes self !! id = Some f ->
  footnotes_list page = Some l ->
  list_contains f l = false ->
  process_footnote self id page =
    ok (length l + 1, set_footnotes_list (l ++ [f]) page).
Proof.
  intros Hf Hl Hc. unfold process_footnote. rewrite Hf, Hl. simpl.
  now rewrite Hc, (list_index_new _ _ Hc).
Qed.

(** Both cases at once: the list after the call and the index returned. *)
Lemma process_footnote_ok (self : Block) (id : string) (page : Page)
    (f : Footnote) (l : list Footnote) :
  footnotes self !! id = Some f ->
  footnotes_list page = Some l ->
  exists i,
    let l' := if list_contains f l then l else (l ++ [f])%list in
    process_footnote self id page = ok (i + 1, set_footnotes_list l' page)
    /\ list_index f l' = ok i
    /\ (if list_contains f l then i < length l else i = length l).
Proof.
  intros Hf Hl. destruct (list_contains f l) eqn:Hc.
  - destruct (list_index_contains _ _ Hc) as (i & Hi & Hlt). exists i. simpl.
    now rewrite (process_footnote_present _ _ _ _ _ _ Hf Hl Hi).
  - exists (length l). simpl.
    now rewrite (process_footnote_new _ _ _ _ _ Hf Hl Hc), (list_index_new _ _ Hc).
Qed.

Lemma NoDup_pk_step (f : Footnote) (l : list Footnote) :
  NoDup (map pk l) ->
  NoDup (map pk (if list_contains f l then l else (l ++ [f])%list)).
Proof.
  intros Hnd. destruct (list_contains f l) eqn:Hc; [assumption|].
  rewrite map_app. apply NoDup_app. split; [assumption|]. split.
  - intros x Hx Hx'. simpl in Hx'. apply list_elem_of_singleton in Hx'. subst x.
    apply list_contains_pk in Hx. congruence.
  - simpl. apply NoDup_singleton.
Qed.

(** ** The numbering rule, a sequence of calls *)

Lemma run_calls_cons {S A} (f : string -> S -> result (A * S))
    (id : string) (ids : list string) (st st1 : S) (out : A) :
  f id st = ok (out, st1) ->
  run_calls f (id :: ids) st =
    do (outs, st2) <- run_calls f ids st1; ok (out :: outs, st2).
Proof. intros H. simpl. now rewrite H. Qed.

Lemma run_calls_app {S A} (f : string -> S -> result (A * S))
    (ids1 ids2 : list string) (st : S) :
  run_calls f (ids1 ++ ids2) st =
    do (outs1, st1) <- run_calls f ids1 st;
    do (outs2, st2) <- run_calls f ids2 st1;
    ok ((outs1 ++ outs2)%list, st2).
Proof.
  revert st. induction ids1 as [|id ids1 IH]; intros st; simpl.
  - now destruct (run_calls f ids2 st) as [e|[outs2 st2]].
  - destruct (f id st) as [e|[out st1]]; [reflexivity|]. simpl.
    rewrite IH. destruct (run_calls f ids1 st1) as [e|[outs1 st2]];
      [reflexivity|]. simpl.
    now destruct (run_calls f ids2 st2) as [e|[outs2 st3]].
Qed.

(** What a run of the numbering rule over resolvable identifiers leaves
    behind, from any list [l0]: the list only grows at its end, stays free
    of duplicates, every index is one more than the position of its footnote
    in the final list, and an index is an old one, one already given in this
    run, or the next integer. *)
Lemma process_footnotes_run (self : Block) (ids : list string) :
  forall (page : Page) (l0 : list Footnote),
  footnotes_list page = Some l0 ->
  Forall (fun id => is_Some (footnotes self !! id)) ids ->
  exists indices page' l',
    process_footnotes self ids page = ok (indices, page')
    /\ footnotes_list page' = Some l'
    /\ (exists ext, l' = (l0 ++ ext)%list)
    /\ (NoDup (map pk l0) -> NoDup (map pk l'))
    /\ (forall k id f i,
          ids !! k = Some id -> footnotes self !! id = Some f ->
          indices !! k = Some i ->
          exists p, i = p + 1 /\ list_index f l' = ok p)
    /\ (forall a i b,
          indices = (a ++ i :: b)%list ->
          1 <= i
          /\ (i <= length l0 \/ i ∈ a
              \/ i = S (Nat.max (length l0) (list_max a)))).
Proof.
  induction ids as [|id ids IH]; intros page l0 Hl0 Hall.
  - exists [], page, l0. repeat split; auto.
    + exists []. now rewrite app_nil_r.
    + intros k id f i Hk. discriminate.
    + destruct a; discriminate.
    + destruct a; discriminate.
  - inversion Hall as [|? ? [f Hf] Hall']; subst.
    destruct (process_footnote_ok self id page f l0 Hf Hl0) as (i0 & Hstep & Hi0 & Hcase).
    simpl in Hstep.
    set (l1 := if list_contains f l0 then l0 else (l0 ++ [f])%list) in *.
    destruct (IH (set_footnotes_list l1 page) l1 eq_refl Hall')
      as (indices & page' & l' & Hrun & Hl' & [ext Hext] & Hnd & Hpos & Hgap).
    exists (i0 + 1 :: indices), page', l'.
    assert (Hlen : length l1 = length l0 /\ i0 < length l0
                   \/ length l1 = S (length l0) /\ i0 = length l0).
    { subst l1. destruct (list_contains f l0); [left; auto|right].
      rewrite length_app. simpl. lia. }
    split; [|split; [|split; [|split; [|split]]]].
    + unfold process_footnotes in *.
      rewrite (run_calls_cons _ _ _ _ _ _ Hstep), Hrun. reflexivity.
    + assumption.
    + subst l1. destruct (list_contains f l0).
      * now exists ext.
      * exists ([f] ++ ext)%list. now rewrite Hext, <- app_assoc.
    + intros Hnd0. apply Hnd. subst l1. now apply NoDup_pk_step.
    + intros [|k] id' f' i Hk Hf' Hi; simpl in Hk, Hi.
      * injection Hk as <-. injection Hi as <-.
        rewrite Hf in Hf'. injection Hf' as <-.
        exists i0. split; [reflexivity|]. rewrite Hext. now apply list_index_app_l.
      * eauto.
    + intros [|a0 a] i b E; simpl in E; injection E as <- ->.
      * split; [lia|]. simpl. destruct Hlen as [[_ ?]|[_ ?]]; [left | right; right]; lia.
      * destruct (Hgap a i b eq_refl) as [Hge Hor]. split; [assumption|].
        simpl. rewrite elem_of_cons.
        destruct Hor as [Hle | [Hin | ->]].
        -- destruct Hlen as [[Hl _]|[Hl ->]]; [left; lia|].
           destruct (decide (i = length l0 + 1)); [right; left; left; lia | left; lia].
        -- right; left; right; assumption.
        -- right; right. destruct Hlen as [[-> ?]|[-> ->]]; lia.
Qed.

(** ** The default dictionary *)

Lemma getitem_spec (d : gmap string (list string)) (k : string) :
  DefaultDict.getitem d k =
    (default [] (d !! k),
     match d !! k with Some _ => d | None => <[k := []]> d end).
Proof. unfold DefaultDict.getitem. now destruct (d !! k). Qed.

Lemma getitem_lookup (d : gmap string (list string)) (k : string) :
  (DefaultDict.getitem d k).2 !! k = Some (default [] (d !! k)).
Proof.
  rewrite getitem_spec. simpl. destruct (d !! k) eqn:E; simpl.
  - assumption.
  - apply lookup_insert_eq.
Qed.

Lemma append_spec (d : gmap string (list string)) (k x : string) :
  DefaultDict.append d k x = <[k := (default [] (d !! k) ++ [x])%list]> d.
Proof.
  unfold DefaultDict.append. rewrite getitem_spec.
  destruct (d !! k); simpl; [reflexivity|]. apply insert_insert_eq.
Qed.

Lemma append_after_getitem (d : gmap string (list string)) (k x : string) :
  DefaultDict.append (DefaultDict.getitem d k).2 k x =
    <[k := (default [] (d !! k) ++ [x])%list]> d.
Proof.
  rewrite append_spec, getitem_lookup. simpl. rewrite getitem_spec. simpl.
  destruct (d !! k); [reflexivity|]. apply insert_insert_eq.
Qed.

(** ** One call of [replace_tag] *)

Lemma replace_tag_unresolved (self : Block) (U : string) (page : Page) :
  footnotes self !! U = None ->
  replace_tag self U page = ok (EmptyString, page).
Proof.
  intros H. unfold replace_tag. now rewrite (process_footnote_unknown _ _ _ H).
Qed.

Lemma replace_tag_resolved (self : Block) (U : string) (page : Page)
    (f : Footnote) (l : list Footnote) (d : gmap string (list string)) :
  footnotes self !! U = Some f ->
  footnotes_list page = Some l ->
  footnotes_references page = Some d ->
  exists i,
    let l' := if list_contains f l then l else (l ++ [f])%list in
    let ids := default [] (d !! U) in
    list_index f l' = ok i
    /\ replace_tag self U page =
         ok (anchor (i + 1) (length ids),
             set_footnotes_references
               (<[U := (ids ++ [anchor_id (i + 1) (length ids)])%list]> d)
               (set_footnotes_list l' page))
    /\ i <= length l.
Proof.
  intros Hf Hl Hd.
  destruct (process_footnote_ok self U page f l Hf Hl) as (i & Hstep & Hi & Hb).
  exists i. simpl in *. split; [assumption|].
  split; [|destruct (list_contains f l); lia].
  unfold replace_tag. rewrite Hstep. simpl. rewrite Hd. simpl.
  pose proof (append_after_getitem d U) as Happ.
  rewrite getitem_spec in *. simpl in *. now rewrite Happ.
Qed.

(** ** A sequence of calls of [replace_tag] *)

Lemma occurrences_cons_eq (U : string) (ids : list string) :
  occurrences U (U :: ids) = S (occurrences U ids).
Proof. unfold occurrences. now rewrite filter_cons_True. Qed.

Lemma occurrences_cons_ne (U V : string) (ids : list string) :
  V <> U -> occurrences U (V :: ids) = occurrences U ids.
Proof. intros H. unfold occurrences. now rewrite filter_cons_False. Qed.

Lemma outputs_for_cons_eq (U out : string) (ids outs : list string) :
  outputs_for U (U :: ids) (out :: outs) = out :: outputs_for U ids outs.
Proof. simpl. now rewrite String.eqb_refl. Qed.

Lemma outputs_for_cons_ne (U V out : string) (ids outs : list string) :
  V <> U ->
  outputs_for U (V :: ids) (out :: outs) = outputs_for U ids outs.
Proof. intros H. simpl. apply String.eqb_neq in H. now rewrite H. Qed.

(** Once the footnote of [U] is in the list at position [i], every call on
    [U] gives index [i + 1] and the next occurrence number, whatever other
    identifiers come in between. *)
Lemma replace_tags_known (self : Block) (U : string) (f : Footnote) (i : nat)
    (ids : list string) :
  footnotes self !! U = Some f ->
  forall (page : Page) (l : list Footnote) (d : gmap string (list string)),
  footnotes_list page = Some l ->
  footnotes_references page = Some d ->
  list_index f l = ok i ->
  exists outs page' l' d',
    replace_tags self ids page = ok (outs, page')
    /\ footnotes_list page' = Some l'
    /\ footnotes_references page' = Some d'
    /\ list_index f l' = ok i
    /\ outputs_for U ids outs =
         map (anchor (i + 1))
           (seq (length (default [] (d !! U))) (occurrences U ids))
    /\ default [] (d' !! U) =
         (default [] (d !! U)
            ++ map (anchor_id (i + 1))
                 (seq (length (default [] (d !! U))) (occurrences U ids)))%list.
Proof.
  intros Hf. induction ids as [|V ids IH]; intros page l d Hl Hd Hi.
  - exists [], page, l, d. simpl. rewrite app_nil_r. repeat split; auto.
  - unfold replace_tags in *.
    destruct (footnotes self !! V) as [g|] eqn:Hg.
    + destruct (replace_tag_resolved self V page g l d Hg Hl Hd)
        as (j & Hj & Hstep & _). simpl in Hj, Hstep.
      set (l1 := if list_contains g l then l else (l ++ [g])%list) in *.
      set (d1 := <[V := _]> d) in *.
      assert (Hi1 : list_index f l1 = ok i).
      { subst l1. destruct (list_contains g l); [assumption|].
        now apply list_index_app_l. }
      destruct (IH (set_footnotes_references d1 (set_footnotes_list l1 page))
                  l1 d1 eq_refl eq_refl Hi1)
        as (outs & page' & l' & d' & Hrun & Hl' & Hd' & Hi' & Houts & Hids).
      rewrite (run_calls_cons _ _ _ _ _ _ Hstep), Hrun. cbn [bind ok].
      eexists _, page', l', d'. split; [reflexivity|].
      split; [assumption|]. split; [assumption|]. split; [assumption|].
      destruct (decide (V = U)) as [->|Hne].
      * rewrite Hf in Hg. injection Hg as <-.
        rewrite Hi1 in Hj. injection Hj as <-.
        rewrite outputs_for_cons_eq, occurrences_cons_eq, Houts, Hids.
        subst d1. rewrite lookup_insert_eq. simpl.
        rewrite length_app. simpl.
        replace (length (default [] (d !! U)) + 1)
          with (S (length (default [] (d !! U)))) by lia.
        split; [reflexivity|]. now rewrite <- app_assoc.
      * rewrite outputs_for_cons_ne, occurrences_cons_ne, Houts, Hids by assumption.
        subst d1. now rewrite lookup_insert_ne.
    + rewrite (run_calls_cons _ _ _ _ _ _ (replace_tag_unresolved _ _ page Hg)).
      destruct (IH page l d Hl Hd Hi)
        as (outs & page' & l' & d' & Hrun & Hl' & Hd' & Hi' & Houts & Hids).
      rewrite Hrun. cbn [bind ok].
      assert (V <> U) by congruence.
      eexists _, page', l', d'. split; [reflexivity|].
      rewrite outputs_for_cons_ne, occurrences_cons_ne by assumption. auto.
Qed.

(** ** The rewriter with and without a page *)


Lemma get_context_page (value : CtxVal) (context : option (gmap string CtxVal)) :
  get_context value context !! "page" = default ∅ context !! "page".
Proof. unfold get_context. now rewrite !lookup_insert_ne by discriminate. Qed.

Lemma replace_footnote_tags_with_page (self : Block) (value : CtxVal)
    (html : Html) (ctx : gmap string CtxVal) (heap : gmap addr Page)
    (l : addr) (page : Page) :
  ctx !! "page" = Some (CRef l) ->
  heap !! l = Some page ->
  replace_footnote_tags self value html (Some ctx) heap =
    let self1 :=
      {| features := features self;
         footnotes := footnotes_by_uuid (page_footnotes page) |} in
    do (out, page') <-
      Re.sub (replace_tag self1) (html_text html) (with_attributes page);
    ok (SafeString out, self1, <[l := page']> heap).
Proof.
  intros Hctx Hheap. unfold replace_footnote_tags.
  rewrite get_context_page. simpl. rewrite Hctx, Hheap.
  destruct page as [fs [fl|] [fr|]]; reflexivity.
Qed.


Lemma replace_footnote_tags_no_page (self : Block) (value : CtxVal)
    (html : Html) (context : option (gmap string CtxVal))
    (heap : gmap addr Page) :
  no_page context heap ->
  replace_footnote_tags self value html context heap = ok (html, self, heap).
Proof.
  intros Hno. unfold replace_footnote_tags.
  replace (match context with
           | Some c => get_context value (Some c)
           | None => get_context value None
           end) with (get_context value context) by now destruct context.
  rewrite get_context_page.
  destruct context as [ctx|]; simpl; [|reflexivity].
  destruct (ctx !! "page") as [[l|]|] eqn:E; try reflexivity.
  now rewrite (Hno ctx l eq_refl E).
Qed.

(** ** The rewriter never raises *)

Lemma replace_tag_total (self : Block) (U : string) (page : Page)
    (l : list Footnote) (d : gmap string (list string)) :
  footnotes_list page = Some l ->
  footnotes_references page = Some d ->
  exists out page' l' d',
    replace_tag self U page = ok (out, page')
    /\ footnotes_list page' = Some l'
    /\ footnotes_references page' = Some d'.
Proof.
  intros Hl Hd. destruct (footnotes self !! U) as [f|] eqn:Hf.
  - destruct (replace_tag_resolved self U page f l d Hf Hl Hd) as (i & _ & -> & _).
    eexists _, _, _, _. split; [reflexivity|]. split; reflexivity.
  - rewrite (replace_tag_unresolved _ _ _ Hf). now exists EmptyString, page, l, d.
Qed.

Lemma replace_tags_total (self : Block) (ids : list string) :
  forall (page : Page) (l : list Footnote) (d : gmap string (list string)),
  footnotes_list page = Some l ->
  footnotes_references page = Some d ->
  exists outs page', replace_tags self ids page = ok (outs, page').
Proof.
  unfold replace_tags.
  induction ids as [|U ids IH]; intros page l d Hl Hd.
  - now exists [], page.
  - destruct (replace_tag_total self U page l d Hl Hd)
      as (out & page1 & l1 & d1 & Hstep & Hl1 & Hd1).
    destruct (IH page1 l1 d1 Hl1 Hd1) as (outs & page' & Hrun).
    rewrite (run_calls_cons _ _ _ _ _ _ Hstep), Hrun. now eexists _, _.
Qed.

Lemma sub_replace_tag_total (self : Block) (s : string) (page : Page)
    (l : list Footnote) (d : gmap string (list string)) :
  footnotes_list page = Some l ->
  footnotes_references page = Some d ->
  exists out page', Re.sub (replace_tag self) s page = ok (out, page').
Proof.
  intros Hl Hd. rewrite sub_as_calls.
  destruct (replace_tags_total self (Re.findall s) page l d Hl Hd)
    as (outs & page' & Hrun).
  unfold replace_tags in Hrun. rewrite Hrun. now eexists _, _.
Qed.

(** ** The dictionary of the page's footnotes *)

Lemma footnotes_by_uuid_snoc (fs : list Footnote) (f : Footnote) :
  footnotes_by_uuid (fs ++ [f]) = <[uuid f := f]> (footnotes_by_uuid fs).
Proof. unfold footnotes_by_uuid. now rewrite fold_left_app. Qed.

Lemma footnotes_by_uuid_known (fs : list Footnote) (U : string) :
  (exists f, f ∈ fs /\ uuid f = U) ->
  exists g, footnotes_by_uuid fs !! U = Some g /\ g ∈ fs /\ uuid g = U.
Proof.
  induction fs as [|x fs IH] using rev_ind; intros (f & Hin & Hu).
  - inversion Hin.
  - rewrite footnotes_by_uuid_snoc.
    destruct (decide (uuid x = U)) as [Hx|Hx].
    + exists x. rewrite <- Hx, lookup_insert_eq.
      split; [reflexivity|]. split; [|reflexivity].
      apply elem_of_app. right. apply list_elem_of_singleton. reflexivity.
    + rewrite lookup_insert_ne by assumption.
      apply elem_of_app in Hin as [Hin|Hin].
      * destruct IH as (g & Hg & Hgin & Hgu); [now exists f|].
        exists g. split; [assumption|]. split; [|assumption].
        apply elem_of_app. now left.
      * apply list_elem_of_singleton in Hin. congruence.
Qed.

Lemma footnotes_by_uuid_unknown (fs : list Footnote) (U : string) :
  (forall f, f ∈ fs -> uuid f <> U) ->
  footnotes_by_uuid fs !! U = None.
Proof.
  induction fs as [|x fs IH] using rev_ind; intros H.
  - reflexivity.
  - rewrite footnotes_by_uuid_snoc, lookup_insert_ne.
    + apply IH. intros f Hf. apply H, elem_of_app. now left.
    + apply H, elem_of_app. right. apply list_elem_of_singleton. reflexivity.
Qed.

Lemma anchor_1_0 : anchor 1 0 = first_anchor.
Proof. reflexivity. Qed.

Lemma ids_of_eq (page : Page) (d : gmap string (list string)) (U : string) :
  footnotes_references page = Some d -> ids_of page U = default [] (d !! U).
Proof. intros H. unfold ids_of, references_of. now rewrite H. Qed.

Lemma list_of_eq (page : Page) (l : list Footnote) :
  footnotes_list page = Some l -> list_of page = l.
Proof. intros H. unfold list_of. now rewrite H. Qed.

(** A call on another identifier leaves the anchor ids of [U] alone. *)
Lemma replace_tag_frame (self : Block) (U V : string) (page : Page)
    (l : list Footnote) (d : gmap string (list string)) :
  footnotes_list page = Some l ->
  footnotes_references page = Some d ->
  V <> U ->
  exists out page1 l1 d1,
    replace_tag self V page = ok (out, page1)
    /\ footnotes_list page1 = Some l1
    /\ footnotes_references page1 = Some d1
    /\ d1 !! U = d !! U.
Proof.
  intros Hl Hd Hne. destruct (footnotes self !! V) as [g|] eqn:Hg.
  - destruct (replace_tag_resolved self V page g l d Hg Hl Hd) as (i & _ & -> & _).
    eexists _, _, _, _. split; [reflexivity|]. split; [reflexivity|].
    split; [reflexivity|]. now apply lookup_insert_ne.
  - rewrite (replace_tag_unresolved _ _ _ Hg). now exists EmptyString, page, l, d.
Qed.

(** ** Html made of texts and markers *)




(** * The claims *)



(** C2. In a sequence of markers processed against one page object, in
    one block or in several, all the anchors generated for one identifier
    [U] carry the same display index, and their occurrence numbers count up
    by one from the number of anchor ids recorded for [U] before the
    sequence: from 0 in a fresh render pass. Each anchor id is appended to
    the list of [U], so each occurrence number is the length of that list
    just before the append. *)
Theorem repeated_markers_occurrences (self : Block) (U : string) (f : Footnote)
    (ids : list string) :
  footnotes self !! U = Some f ->
  forall (page : Page) (l : list Footnote) (d : gmap string (list string)),
  footnotes_list page = Some l ->
  footnotes_references page = Some d ->
  exists outs page' index,
    replace_tags self ids page = ok (outs, page')
    /\ outputs_for U ids outs =
         map (anchor index)
           (seq (length (ids_of page U)) (occurrences U ids))
    /\ ids_of page' U =
         (ids_of page U
            ++ map (anchor_id index)
                 (seq (length (ids_of page U)) (occurrences U ids)))%list
    /\ (0 < occurrences U ids ->
        1 <= index /\ first_position f (list_of page') (index - 1)).
Proof.
  intros Hf. induction ids as [|V ids IH]; intros page l d Hl Hd.
  - exists [], page, 0. simpl. rewrite app_nil_r.
    repeat split; auto; unfold occurrences in *; simpl in *; lia.
  - unfold replace_tags in *. destruct (decide (V = U)) as [->|Hne].
    + destruct (replace_tag_resolved self U page f l d Hf Hl Hd)
        as (i & Hi & Hstep & _). cbv zeta in Hi, Hstep.
      set (l1 := if list_contains f l then l else (l ++ [f])%list) in *.
      set (d1 := <[U := _]> d) in *.
      destruct (replace_tags_known self U f i ids Hf
                  (set_footnotes_references d1 (set_footnotes_list l1 page))
                  l1 d1 eq_refl eq_refl Hi)
        as (outs & page' & l' & d' & Hrun & Hl' & Hd' & Hi' & Houts & Hids).
      unfold replace_tags in Hrun.
      rewrite (run_calls_cons _ _ _ _ _ _ Hstep), Hrun. cbn [bind ok].
      eexists _, page', (i + 1). split; [reflexivity|].
      rewrite outputs_for_cons_eq, occurrences_cons_eq, Houts.
      rewrite (ids_of_eq _ _ _ Hd'), (ids_of_eq _ _ _ Hd), Hids.
      subst d1. rewrite lookup_insert_eq. simpl.
      rewrite length_app. simpl.
      replace (length (default [] (d !! U)) + 1)
        with (S (length (default [] (d !! U)))) by lia.
      split; [reflexivity|]. split; [now rewrite <- app_assoc|].
      intros _. split; [lia|].
      rewrite (list_of_eq _ _ Hl').
      replace (i + 1 - 1) with i by lia. now apply list_index_first.
    + destruct (replace_tag_frame self U V page l d Hl Hd Hne)
        as (out & page1 & l1 & d1 & Hstep & Hl1 & Hd1 & Hsame).
      destruct (IH page1 l1 d1 Hl1 Hd1)
        as (outs & page' & index & Hrun & Houts & Hids & Hpos).
      rewrite (run_calls_cons _ _ _ _ _ _ Hstep), Hrun. cbn [bind ok].
      eexists _, page', index. split; [reflexivity|].
      rewrite outputs_for_cons_ne, occurrences_cons_ne by assumption.
      rewrite (ids_of_eq _ _ _ Hd1), Hsame, <- (ids_of_eq _ _ _ Hd) in Houts, Hids.
      auto.
Qed.

Lemma repeated_markers_occurrences_witness :
  exists outs page' index,
    replace_tags block_ab ["aaaa"; "bbbb"; "aaaa"; "zzzz"; "aaaa"] page_ab
      = ok (outs, page')
    /\ outputs_for "aaaa" ["aaaa"; "bbbb"; "aaaa"; "zzzz"; "aaaa"] outs =
         map (anchor index)
           (seq (length (ids_of page_ab "aaaa"))
              (occurrences "aaaa" ["aaaa"; "bbbb"; "aaaa"; "zzzz"; "aaaa"]))
    /\ ids_of page' "aaaa" =
         (ids_of page_ab "aaaa"
            ++ map (anchor_id index)
                 (seq (length (ids_of page_ab "aaaa"))
                    (occurrences "aaaa"
                       ["aaaa"; "bbbb"; "aaaa"; "zzzz"; "aaaa"])))%list
    /\ (0 < occurrences "aaaa" ["aaaa"; "bbbb"; "aaaa"; "zzzz"; "aaaa"] ->
        1 <= index /\ first_position fn_a (list_of page') (index - 1)).
Proof.
  apply (repeated_markers_occurrences block_ab "aaaa" fn_a
           ["aaaa"; "bbbb"; "aaaa"; "zzzz"; "aaaa"] eq_refl
           page_ab [] ∅ eq_refl eq_refl).
Defined.

(** C3. The numbering rule. One call on a known footnote appends it to the
    page's list only when no equal footnote is there, returns one more than
    its first position in the list, and keeps the list free of duplicates.
    Over a render pass that starts from the empty list, every index is one
    more than the position of its footnote in the final list, and every
    index is either one given before or the successor of the largest given
    so far: first-appearance order, increasing, without gaps. Two markers
    for two distinct known footnotes get 1 and 2, whatever their primary
    keys and their order in the footnote set. *)
Theorem numbering_rule (self : Block) :
  (forall (id : string) (page : Page) (f : Footnote) (l : list Footnote),
      footnotes self !! id = Some f ->
      footnotes_list page = Some l ->
      exists index l',
        process_footnote self id page = ok (index, set_footnotes_list l' page)
        /\ l' = (if list_contains f l then l else (l ++ [f])%list)
        /\ 1 <= index
        /\ first_position f l' (index - 1)
        /\ (NoDup (map pk l) -> NoDup (map pk l')))
  /\ (forall (ids : list string) (page : Page),
        footnotes_list page = Some [] ->
        Forall (fun id => is_Some (footnotes self !! id)) ids ->
        exists indices page',
          process_footnotes self ids page = ok (indices, page')
          /\ NoDup (map pk (list_of page'))
          /\ (forall k id f i,
                ids !! k = Some id -> footnotes self !! id = Some f ->
                indices !! k = Some i ->
                1 <= i /\ first_position f (list_of page') (i - 1))
          /\ (forall a i b,
                indices = (a ++ i :: b)%list ->
                i ∈ a \/ i = S (list_max a)))
  /\ (forall (U1 U2 : string) (page : Page) (f1 f2 : Footnote),
        footnotes_list page = Some [] ->
        footnotes self !! U1 = Some f1 ->
        footnotes self !! U2 = Some f2 ->
        footnote_eqb f1 f2 = false ->
        process_footnotes self [U1; U2] page =
          ok ([1; 2], set_footnotes_list [f1; f2] page)).
Proof.
  split; [|split].
  - intros id page f l Hf Hl.
    destruct (process_footnote_ok self id page f l Hf Hl) as (i & Hstep & Hi & _).
    cbv zeta in Hstep, Hi.
    exists (i + 1), (if list_contains f l then l else (l ++ [f])%list).
    split; [assumption|]. split; [reflexivity|]. split; [lia|].
    split; [|apply NoDup_pk_step].
    replace (i + 1 - 1) with i by lia. now apply list_index_first.
  - intros ids page Hl Hall.
    destruct (process_footnotes_run self ids page [] Hl Hall)
      as (indices & page' & l' & Hrun & Hl' & _ & Hnd & Hpos & Hgap).
    exists indices, page'. rewrite (list_of_eq _ _ Hl').
    split; [assumption|]. split; [apply Hnd; constructor|]. split.
    + intros k id f i Hk Hf Hi.
      destruct (Hpos k id f i Hk Hf Hi) as (p & -> & Hp).
      split; [lia|]. replace (p + 1 - 1) with p by lia.
      now apply list_index_first.
    + intros a i b E. destruct (Hgap a i b E) as [Hge [Hle|[Hin|Heq]]].
      * simpl in Hle. lia.
      * now left.
      * right. simpl in Heq. lia.
  - intros U1 U2 page f1 f2 Hl Hf1 Hf2 Hne.
    unfold process_footnotes.
    rewrite (run_calls_cons _ _ _ _ _ _
               (process_footnote_new self U1 page f1 [] Hf1 Hl eq_refl)).
    assert (Hc : list_contains f2 [f1] = false).
    { unfold list_contains. simpl. now rewrite Hne. }
    rewrite (run_calls_cons _ _ _ _ _ _
               (process_footnote_new self U2 (set_footnotes_list ([] ++ [f1]) page)
                  f2 [f1] Hf2 eq_refl Hc)).
    reflexivity.
Qed.

Lemma numbering_rule_witness :
  process_footnotes block_ab ["aaaa"; "bbbb"] page_ab =
    ok ([1; 2], set_footnotes_list [fn_a; fn_b] page_ab).
Proof.
  apply (proj2 (proj2 (numbering_rule block_ab)) "aaaa" "bbbb" page_ab fn_a fn_b);
    reflexivity.
Defined.

(** C4. A marker whose identifier is not a key of the page's footnote set,
    well formed or not, is replaced by the empty string: [replace_tag]
    returns the empty string and the page as it was, without raising. In
    html with one such marker between a text [pre] without the opening tag
    and a text [post] without markers the output is [pre] followed by
    [post], and the page's list and reference mapping hold what they held
    before. *)
Theorem unknown_marker_removed
    (self : Block) (value : CtxVal) (html : Html) (ctx : gmap string CtxVal)
    (heap : gmap addr Page) (l : addr) (page : Page) (pre U L post : string) :
  html_text html = pre ++ marker U L ++ post ->
  ctx !! "page" = Some (CRef l) ->
  heap !! l = Some page ->
  (forall f, f ∈ page_footnotes page -> uuid f <> U) ->
  contains Re.opener pre = false ->
  has_char newline U = false ->
  contains Re.middle U = false ->
  has_char newline L = false ->
  contains Re.closer L = false ->
  ~ has_marker post ->
  let self1 :=
    {| features := features self;
       footnotes := footnotes_by_uuid (page_footnotes page) |} in
  (forall page1, replace_tag self1 U page1 = ok (EmptyString, page1))
  /\ replace_footnote_tags self value html (Some ctx) heap =
       ok (SafeString (pre ++ post), self1, <[l := with_attributes page]> heap)
  /\ list_of (with_attributes page) = list_of page
  /\ references_of (with_attributes page) = references_of page.
Proof.
  intros Htext Hctx Hheap Hunknown Hpre HU1 HU2 HL1 HL2 Hpost self1.
  assert (Hnone : footnotes self1 !! U = None)
    by now apply footnotes_by_uuid_unknown.
  split; [intros page1; now apply replace_tag_unresolved|].
  split; [|split; reflexivity].
  rewrite (replace_footnote_tags_with_page _ _ _ _ _ _ _ Hctx Hheap).
  cbv zeta. fold self1.
  rewrite Htext, sub_before_marker by assumption.
  rewrite (sub_match _ _ U post) by (now apply match_here_marker).
  rewrite (replace_tag_unresolved _ _ _ Hnone). cbn [bind ok].
  apply search_false in Hpost. rewrite (sub_no_marker _ _ _ Hpost).
  reflexivity.
Qed.

Lemma unknown_marker_removed_witness :
  replace_footnote_tags block1 COther
    (SafeString ("<p>Text " ++ marker "no-such-id" "[x]" ++ "</p>"))
    (Some ctx0) heap0 =
    ok (SafeString ("<p>Text " ++ "</p>"), block1,
        <[1 := with_attributes page0]> heap0).
Proof.
  apply (unknown_marker_removed block1 COther
           (SafeString ("<p>Text " ++ marker "no-such-id" "[x]" ++ "</p>"))
           ctx0 heap0 1 page0 "<p>Text " "no-such-id" "[x]" "</p>");
    try reflexivity.
  - intros f Hf. apply list_elem_of_singleton in Hf. subst f. discriminate.
  - apply search_false. reflexivity.
Defined.

(** C5. When the context gives no page object, [replace_footnote_tags]
    returns the html it was given, markers included, and leaves the block
    and every page of the heap as they were. *)
Theorem no_page_passthrough (self : Block) (value : CtxVal) (html : Html)
    (context : option (gmap string CtxVal)) (heap : gmap addr Page) :
  no_page context heap ->
  replace_footnote_tags self value html context heap = ok (html, self, heap).
Proof. apply replace_footnote_tags_no_page. Qed.

Lemma no_page_passthrough_witness :
  replace_footnote_tags block1 COther (Str html1) None heap0
    = ok (Str html1, block1, heap0)
  /\ replace_footnote_tags block1 COther (Str html1)
       (Some {[ "page" := COther ]}) heap0
     = ok (Str html1, block1, heap0)
  /\ replace_footnote_tags block1 COther (Str html1)
       (Some {[ "request" := COther ]}) heap0
     = ok (Str html1, block1, heap0).
Proof.
  split; [|split]; apply no_page_passthrough; intros ctx l Hc Hp.
  - discriminate.
  - injection Hc as <-. discriminate.
  - injection Hc as <-. discriminate.
Defined.

(** C6. Html without a marker comes back with the same text, and every page
    of the heap keeps the footnote list and the reference mapping it had. *)
Theorem marker_free_identity (self : Block) (value : CtxVal) (html : Html)
    (context : option (gmap string CtxVal)) (heap : gmap addr Page) :
  ~ has_marker (html_text html) ->
  exists out self' heap',
    replace_footnote_tags self value html context heap = ok (out, self', heap')
    /\ html_text out = html_text html
    /\ forall l page,
         heap !! l = Some page ->
         exists page',
           heap' !! l = Some page'
           /\ list_of page' = list_of page
           /\ references_of page' = references_of page.
Proof.
  intros Hno. apply search_false in Hno.
  assert (Hcases : no_page context heap
                   \/ exists ctx l page,
                        context = Some ctx /\ ctx !! "page" = Some (CRef l)
                        /\ heap !! l = Some page).
  { destruct context as [ctx|]; [|left; intros ? ? ?; discriminate].
    destruct (ctx !! "page") as [[l|]|] eqn:E.
    - destruct (heap !! l) as [page|] eqn:Eh.
      + right. now exists ctx, l, page.
      + left. intros ? ? [= <-] Hp. rewrite E in Hp. now injection Hp as <-.
    - left. intros ? ? [= <-] Hp. rewrite E in Hp. discriminate.
    - left. intros ? ? [= <-] Hp. rewrite E in Hp. discriminate. }
  destruct Hcases as [Hnp | (ctx & l & page & -> & Hctx & Hheap)].
  - rewrite (replace_footnote_tags_no_page _ _ _ _ _ Hnp).
    exists html, self, heap. split; [reflexivity|]. split; [reflexivity|].
    intros l page Hl. now exists page.
  - rewrite (replace_footnote_tags_with_page _ _ _ _ _ _ _ Hctx Hheap).
    cbv zeta. rewrite (sub_no_marker _ _ _ Hno). cbn [bind ok].
    eexists _, _, _. split; [reflexivity|]. split; [reflexivity|].
    intros l' page0' Hl'. destruct (decide (l = l')) as [<-|Hne].
    + rewrite lookup_insert_eq. exists (with_attributes page).
      rewrite Hheap in Hl'. injection Hl' as <-. auto.
    + rewrite lookup_insert_ne by assumption. now exists page0'.
Qed.

Lemma marker_free_identity_witness :
  exists out self' heap',
    replace_footnote_tags block1 COther
      (Str "<p>This is a paragraph with no footnote.</p>") (Some ctx0) heap0
      = ok (out, self', heap')
    /\ html_text out = "<p>This is a paragraph with no footnote.</p>"
    /\ forall l page,
         heap0 !! l = Some page ->
         exists page',
           heap' !! l = Some page'
           /\ list_of page' = list_of page
           /\ references_of page' = references_of page.
Proof.
  apply (marker_free_identity block1 COther
           (Str "<p>This is a paragraph with no footnote.</p>")
           (Some ctx0) heap0).
  apply search_false. reflexivity.
Defined.

(** C7. The feature list of a new block is the caller's list, in the
    caller's order, with [footnotes] appended at the end exactly when it
    was not in the list. Without features, or with the empty list, it is the
    one-element list [footnotes]. The constructor does not add a second
    copy, and building a block from the feature list of a block changes
    nothing. *)
Theorem init_features (kw : option (list string)) :
  let given := default [] kw in
  ("footnotes" ∈ given -> features (__init__ kw) = given)
  /\ ("footnotes" ∉ given ->
      features (__init__ kw) = (given ++ ["footnotes"])%list)
  /\ features (__init__ None) = ["footnotes"]
  /\ features (__init__ (Some [])) = ["footnotes"]
  /\ (count_occ string_dec given "footnotes" <= 1 ->
      count_occ string_dec (features (__init__ kw)) "footnotes" = 1)
  /\ features (__init__ (Some (features (__init__ kw)))) =
       features (__init__ kw).
Proof.
  intros given.
  assert (Hshape : features (__init__ kw) =
                     if bool_decide ("footnotes" ∈ given) then given
                     else (given ++ ["footnotes"])%list).
  { subst given. destruct kw as [[|x fs]|]; reflexivity. }
  assert (Hin : "footnotes" ∈ features (__init__ kw)).
  { rewrite Hshape. case_bool_decide; [assumption|].
    apply elem_of_app. right. now apply list_elem_of_singleton. }
  split; [|split; [|split; [|split; [|split]]]].
  - intros H. now rewrite Hshape, bool_decide_true.
  - intros H. now rewrite Hshape, bool_decide_false.
  - reflexivity.
  - reflexivity.
  - intros Hle. rewrite Hshape. case_bool_decide as Hd.
    + apply list_elem_of_In, (count_occ_In string_dec) in Hd. lia.
    + rewrite count_occ_app. simpl.
      assert (count_occ string_dec given "footnotes" = 0) as ->; [|reflexivity].
      apply count_occ_not_In. now rewrite <- list_elem_of_In.
  - destruct (features (__init__ kw)) as [|x r] eqn:E; [inversion Hin|].
    unfold __init__ at 1. cbn [features default].
    now rewrite bool_decide_true.
Qed.

Lemma init_features_witness :
  features (__init__ (Some ["h1"; "h2"])) = ["h1"; "h2"; "footnotes"]
  /\ features (__init__ (Some ["footnotes"; "bold"])) = ["footnotes"; "bold"].
Proof.
  split.
  - apply (proj1 (proj2 (init_features (Some ["h1"; "h2"])))).
    apply (proj1 (bool_decide_eq_false _)). reflexivity.
  - apply (proj1 (init_features (Some ["footnotes"; "bold"]))).
    apply list_elem_of_here.
Defined.

(** C8, as the code has it. With a page in the context the result is a
    [SafeString]. Without one the html is returned as it was given: what
    comes back is marked safe exactly when the input was. *)
Theorem safe_with_page_else_as_given (self : Block) (value : CtxVal)
    (html : Html) (context : option (gmap string CtxVal))
    (heap : gmap addr Page) (out : Html) (self' : Block)
    (heap' : gmap addr Page) :
  replace_footnote_tags self value html context heap = ok (out, self', heap') ->
  (forall ctx l page,
      context = Some ctx -> ctx !! "page" = Some (CRef l) ->
      heap !! l = Some page -> is_safe out = true)
  /\ (no_page context heap -> out = html /\ is_safe out = is_safe html).
Proof.
  intros Hrun. split.
  - intros ctx l page -> Hctx Hheap.
    rewrite (replace_footnote_tags_with_page _ _ _ _ _ _ _ Hctx Hheap) in Hrun.
    cbv zeta in Hrun.
    destruct (Re.sub _ _ _) as [e|[s page']]; [discriminate|].
    cbn [bind ok] in Hrun. now injection Hrun as <- _ _.
  - intros Hnp. rewrite (replace_footnote_tags_no_page _ _ _ _ _ Hnp) in Hrun.
    now injection Hrun as <- _ _.
Qed.

Lemma safe_with_page_else_as_given_witness :
  (forall ctx l page,
      Some ctx0 = Some ctx -> ctx !! "page" = Some (CRef l) ->
      heap0 !! l = Some page ->
      is_safe (SafeString
                 ("<p>This is a paragraph with a footnote. " ++ first_anchor
                    ++ "</p>")) = true)
  /\ (no_page (Some ctx0) heap0 ->
      SafeString
        ("<p>This is a paragraph with a footnote. " ++ first_anchor ++ "</p>")
      = Str html1
      /\ is_safe (SafeString
                    ("<p>This is a paragraph with a footnote. " ++ first_anchor
                       ++ "</p>")) = is_safe (Str html1)).
Proof.
  apply (safe_with_page_else_as_given block1 COther (Str html1) (Some ctx0)
           heap0 _ block1
           (<[1 := mkPage [fn1] (Some [fn1])
                     (Some {[ uuid1 := ["footnote-source-1-0"] ]})]> heap0)).
  vm_compute. reflexivity.
Defined.

(** C8, as the claim states it, fails: a plain [str] rendered without a
    context comes back as the same plain [str], not marked safe. *)
Lemma always_safe_counterexample :
  ~ (forall (self : Block) (value : CtxVal) (html : Html)
            (context : option (gmap string CtxVal)) (heap : gmap addr Page)
            (out : Html) (self' : Block) (heap' : gmap addr Page),
        replace_footnote_tags self value html context heap
          = ok (out, self', heap') ->
        is_safe out = true).
Proof.
  intros H.
  specialize (H (__init__ None) COther (Str "foo") None ∅
                (Str "foo") (__init__ None) ∅ eq_refl).
  discriminate.
Qed.

(** C9. The filter returns the anchor ids recorded for the identifier in
    the value's reference mapping, the empty list when the identifier has no
    entry, and the empty list when the value has no such attribute. It is a
    total function: there is no input on which it raises. *)
Theorem get_reference_ids_returns (value : TemplateValue) (U : string) :
  (forall page d ids,
      value = TPage page -> footnotes_references page = Some d ->
      d !! U = Some ids -> (get_reference_ids value U).1 = ids)
  /\ (forall page d,
        value = TPage page -> footnotes_references page = Some d ->
        d !! U = None -> (get_reference_ids value U).1 = [])
  /\ (forall page,
        value = TPage page -> footnotes_references page = None ->
        (get_reference_ids value U).1 = [])
  /\ (value = TOther -> (get_reference_ids value U).1 = []).
Proof.
  split; [|split; [|split]].
  - intros page d ids -> Hd Hids. simpl. rewrite Hd.
    unfold DefaultDict.get. now rewrite Hids.
  - intros page d -> Hd Hids. simpl. rewrite Hd.
    unfold DefaultDict.get. now rewrite Hids.
  - intros page -> Hd. simpl. now rewrite Hd.
  - now intros ->.
Qed.

Lemma get_reference_ids_returns_witness :
  (get_reference_ids (TPage page_twice) uuid1).1
  = ["footnote-source-1-0"; "footnote-source-1-1"].
Proof.
  apply (proj1 (get_reference_ids_returns (TPage page_twice) uuid1)
           page_twice refs_twice);
    reflexivity.
Defined.

(** C10. The filter is read-only: the value is the same after the call. An
    identifier without anchors has no entry after the lookup either, whereas
    indexing the default dictionary with it would have bound it to an empty
    list. *)
Theorem get_reference_ids_read_only (value : TemplateValue) (U : string) :
  (get_reference_ids value U).2 = value
  /\ (forall page d,
        value = TPage page -> footnotes_references page = Some d ->
        d !! U = None ->
        exists page',
          (get_reference_ids value U).2 = TPage page'
          /\ footnotes_references page' = Some d
          /\ d !! U = None
          /\ (DefaultDict.getitem d U).2 !! U = Some []).
Proof.
  assert (Hsame : (get_reference_ids value U).2 = value).
  { destruct value as [[fs fl [d|]]|]; simpl; try reflexivity.
    unfold DefaultDict.get. now destruct (d !! U). }
  split; [assumption|].
  intros page d -> Hd Hnone. exists page. rewrite Hsame.
  split; [reflexivity|]. split; [assumption|]. split; [assumption|].
  now rewrite getitem_lookup, Hnone.
Qed.

Lemma get_reference_ids_read_only_witness :
  exists page',
    (get_reference_ids (TPage (with_attributes page0)) uuid1).2 = TPage page'
    /\ footnotes_references page' = Some ∅
    /\ (∅ : gmap string (list string)) !! uuid1 = None
    /\ (DefaultDict.getitem ∅ uuid1).2 !! uuid1 = Some [].
Proof.
  apply (proj2 (get_reference_ids_read_only (TPage (with_attributes page0)) uuid1)
           (with_attributes page0) ∅); reflexivity.
Defined.

(** * The rewriter as a sequence of calls, and the test suite *)

(** With a page, [replace_footnote_tags] is the run of [replace_tag] over
    the identifiers of the matches, spliced into the text. *)
Lemma replace_footnote_tags_as_calls (self : Block) (value : CtxVal)
    (html : Html) (ctx : gmap string CtxVal) (heap : gmap addr Page)
    (l : addr) (page : Page) :
  ctx !! "page" = Some (CRef l) ->
  heap !! l = Some page ->
  replace_footnote_tags self value html (Some ctx) heap =
    let self1 :=
      {| features := features self;
         footnotes := footnotes_by_uuid (page_footnotes page) |} in
    do (outs, page') <-
      replace_tags self1 (Re.findall (html_text html)) (with_attributes page);
    ok (SafeString (splice (html_text html) outs), self1, <[l := page']> heap).
Proof.
  intros Hctx Hheap.
  rewrite (replace_footnote_tags_with_page _ _ _ _ _ _ _ Hctx Hheap).
  cbv zeta. rewrite sub_as_calls. unfold replace_tags.
  now destruct (run_calls _ _ _) as [e|[outs page']].
Qed.

(** A call keeps the page's footnote set and leaves both attributes set. *)
Lemma replace_tags_preserves (self : Block) (ids : list string) :
  forall (page page' : Page) (outs : list string)
         (l : list Footnote) (d : gmap string (list string)),
  footnotes_list page = Some l ->
  footnotes_references page = Some d ->
  replace_tags self ids page = ok (outs, page') ->
  page_footnotes page' = page_footnotes page
  /\ with_attributes page' = page'.
Proof.
  unfold replace_tags.
  induction ids as [|U ids IH]; intros page page' outs l d Hl Hd Hrun.
  - injection Hrun as <- <-. split; [reflexivity|].
    destruct page as [fs fl fr]. simpl in *. now subst.
  - simpl in Hrun.
    assert (Hstep : exists out page1 l1 d1,
               replace_tag self U page = ok (out, page1)
               /\ footnotes_list page1 = Some l1
               /\ footnotes_references page1 = Some d1
               /\ page_footnotes page1 = page_footnotes page).
    { destruct (footnotes self !! U) as [f|] eqn:Hf.
      - destruct (replace_tag_resolved self U page f l d Hf Hl Hd) as (i & _ & -> & _).
        eexists _, _, _, _. repeat split; reflexivity.
      - rewrite (replace_tag_unresolved _ _ _ Hf).
        now exists EmptyString, page, l, d. }
    destruct Hstep as (out & page1 & l1 & d1 & Hstep & Hl1 & Hd1 & Hfs).
    rewrite Hstep in Hrun. cbn [bind ok] in Hrun.
    destruct (run_calls (replace_tag self) ids page1) as [e|[outs1 page2]] eqn:E;
      [discriminate|].
    cbn [bind ok] in Hrun. injection Hrun as <- <-.
    destruct (IH page1 page2 outs1 l1 d1 Hl1 Hd1 E) as [Hfs2 Hattr].
    split; [congruence | assumption].
Qed.

(** Two blocks rendered one after the other with the same page in their
    context make the calls of the first block's matches followed by those of
    the second, on one page state. *)
Lemma two_blocks_as_calls (self_a self_b : Block) (value : CtxVal)
    (html_a html_b : Html) (ctx : gmap string CtxVal) (heap : gmap addr Page)
    (l : addr) (page : Page) :
  ctx !! "page" = Some (CRef l) ->
  heap !! l = Some page ->
  let self1 :=
    {| features := features self_a;
       footnotes := footnotes_by_uuid (page_footnotes page) |} in
  exists outs_a outs_b page' self_a' self_b' heap1 heap2,
    replace_footnote_tags self_a value html_a (Some ctx) heap =
      ok (SafeString (splice (html_text html_a) outs_a), self_a', heap1)
    /\ replace_footnote_tags self_b value html_b (Some ctx) heap1 =
         ok (SafeString (splice (html_text html_b) outs_b), self_b', heap2)
    /\ replace_tags self1
         (Re.findall (html_text html_a) ++ Re.findall (html_text html_b))
         (with_attributes page) = ok ((outs_a ++ outs_b)%list, page')
    /\ heap2 !! l = Some page'.
Proof.
  intros Hctx Hheap self1.
  destruct (replace_tags_total self1 (Re.findall (html_text html_a))
              (with_attributes page) _ _ eq_refl eq_refl)
    as (outs_a & page_a & Hrun_a).
  destruct (replace_tags_preserves _ _ (with_attributes page) page_a outs_a
              (list_of page) (references_of page) eq_refl eq_refl Hrun_a)
    as [Hfs Hattr].
  assert (Hl : exists la da, footnotes_list page_a = Some la
                             /\ footnotes_references page_a = Some da).
  { rewrite <- Hattr. now eexists _, _. }
  destruct Hl as (la & da & Hla & Hda).
  destruct (replace_tags_total self1 (Re.findall (html_text html_b))
              page_a la da Hla Hda) as (outs_b & page_b & Hrun_b).
  exists outs_a, outs_b, page_b. eexists _, _, _, _.
  split; [|split; [|split]].
  - rewrite (replace_footnote_tags_as_calls _ _ _ _ _ _ _ Hctx Hheap).
    cbv zeta. fold self1. rewrite Hrun_a. reflexivity.
  - rewrite (replace_footnote_tags_as_calls _ _ _ _ _ l page_a Hctx)
      by apply lookup_insert_eq.
    cbv zeta. rewrite Hfs, Hattr. simpl page_footnotes.
    unfold replace_tags in *.
    match goal with
    | |- context [run_calls (replace_tag ?b) ?ids page_a] =>
        replace (run_calls (replace_tag b) ids page_a)
          with (run_calls (replace_tag self1) ids page_a) by reflexivity
    end.
    rewrite Hrun_b. reflexivity.
  - unfold replace_tags in *. rewrite run_calls_app, Hrun_a. cbn [bind ok].
    now rewrite Hrun_b.
  - apply lookup_insert_eq.
Qed.

(** The expectations of [tests/test/test_blocks.py], evaluated. *)

Example test_block_with_no_features :
  features (__init__ None) = ["footnotes"].
Proof. reflexivity. Qed.

Example test_block_with_features :
  features (__init__ (Some ["h1"; "h2"])) = ["h1"; "h2"; "footnotes"].
Proof. reflexivity. Qed.

Example test_block_replace_footnote_tags :
  replace_footnote_tags (__init__ None) COther (Str "foo") None ∅
    = ok (Str "foo", __init__ None, ∅).
Proof. reflexivity. Qed.

Example test_block_replace_footnote_render :
  match
    replace_footnote_tags (__init__ None) COther (SafeString html1)
      (Some ctx0) heap0
  with
  | inr (out, _, _) =>
      out = SafeString
              ("<p>This is a paragraph with a footnote. <a href=" ++ dq
                 ++ "#footnote-1" ++ dq ++ " id=" ++ dq
                 ++ "footnote-source-1-0" ++ dq ++ "><sup>[1]</sup></a></p>")
  | inl _ => False
  end.
Proof. vm_compute. reflexivity. Qed.

Example test_block_replace_footnote_with_multiple_references_render :
  match
    replace_footnote_tags (__init__ None) COther
      (SafeString
         ("<p>This is a paragraph with a footnote. "
            ++ marker uuid1 "[f291a4]"
            ++ "</p><p>This is another paragraph with a reference to the same footnote. "
            ++ marker uuid1 "[f291a4]" ++ "</p>"))
      (Some ctx0) heap0
  with
  | inr (out, _, heap') =>
      out = SafeString
              ("<p>This is a paragraph with a footnote. " ++ anchor 1 0
                 ++ "</p><p>This is another paragraph with a reference to the same footnote. "
                 ++ anchor 1 1 ++ "</p>")
      /\ heap' !! 1 = Some page_twice
  | inl _ => False
  end.
Proof. vm_compute. split; reflexivity. Qed.

(** Two footnotes referenced against their creation order, in two blocks
    of one page: the first referenced is numbered 1. *)
Example two_footnotes_in_two_blocks :
  let heap := {[ 1 := mkPage [fn_b; fn_a] None None ]} in
  match
    replace_footnote_tags (__init__ None) COther
      (SafeString ("<p>" ++ marker "aaaa" "[a]" ++ marker "bbbb" "[b]" ++ "</p>"))
      (Some ctx0) heap
  with
  | inr (out1, _, heap1) =>
      out1 = SafeString ("<p>" ++ anchor 1 0 ++ anchor 2 0 ++ "</p>")
      /\ match
           replace_footnote_tags (__init__ None) COther
             (SafeString ("<p>" ++ marker "bbbb" "[b]" ++ marker "aaaa" "[a]"
                            ++ "</p>"))
             (Some ctx0) heap1
         with
         | inr (out2, _, _) =>
             out2 = SafeString ("<p>" ++ anchor 2 1 ++ anchor 1 1 ++ "</p>")
         | inl _ => False
         end
  | inl _ => False
  end.
Proof. vm_compute. split; reflexivity. Qed.

(** * Further properties of the code *)

(** ** Steps and runs of [replace_tag] *)

Lemma context_cases (context : option (gmap string CtxVal))
    (heap : gmap addr Page) :
  no_page context heap
  \/ exists ctx l page,
       context = Some ctx /\ ctx !! "page" = Some (CRef l)
       /\ heap !! l = Some page.
Proof.
  destruct context as [ctx|]; [|left; intros ? ? ?; discriminate].
  destruct (ctx !! "page") as [[l|]|] eqn:E.
  - destruct (heap !! l) as [page|] eqn:Eh.
    + right. now exists ctx, l, page.
    + left. intros ? ? [= <-] Hp. rewrite E in Hp. now injection Hp as <-.
  - left. intros ? ? [= <-] Hp. rewrite E in Hp. discriminate.
  - left. intros ? ? [= <-] Hp. rewrite E in Hp. discriminate.
Qed.

(** What one call does to a page that has both attributes. *)
Lemma replace_tag_cases (self : Block) (U : string) (page : Page)
    (l : list Footnote) (d : gmap string (list string)) :
  footnotes_list page = Some l ->
  footnotes_references page = Some d ->
  (footnotes self !! U = None
   /\ replace_tag self U page = ok (EmptyString, page))
  \/ exists f i,
       let l' := if list_contains f l then l else (l ++ [f])%list in
       let ids := default [] (d !! U) in
       footnotes self !! U = Some f
       /\ list_index f l' = ok i
       /\ replace_tag self U page =
            ok (anchor (i + 1) (length ids),
                set_footnotes_references
                  (<[U := (ids ++ [anchor_id (i + 1) (length ids)])%list]> d)
                  (set_footnotes_list l' page)).
Proof.
  intros Hl Hd. destruct (footnotes self !! U) as [f|] eqn:Hf.
  - right. destruct (replace_tag_resolved self U page f l d Hf Hl Hd)
      as (i & Hi & Hstep & _).
    exists f, i. cbv zeta in *. auto.
  - left. split; [reflexivity|]. now apply replace_tag_unresolved.
Qed.

(** A relation between pages that holds across every call holds across
    every run. *)
Lemma replace_tags_rel (self : Block) (R : Page -> Page -> Prop) :
  (forall page, R page page) ->
  (forall p1 p2 p3, R p1 p2 -> R p2 p3 -> R p1 p3) ->
  (forall U page out page' l d,
      footnotes_list page = Some l -> footnotes_references page = Some d ->
      replace_tag self U page = ok (out, page') -> R page page') ->
  forall ids page outs page' l d,
    footnotes_list page = Some l -> footnotes_references page = Some d ->
    replace_tags self ids page = ok (outs, page') ->
    R page page'.
Proof.
  intros Hrefl Htrans Hstep. unfold replace_tags.
  induction ids as [|U ids IH]; intros page outs page' l d Hl Hd Hrun.
  - injection Hrun as <- <-. apply Hrefl.
  - destruct (replace_tag_total self U page l d Hl Hd)
      as (out & page1 & l1 & d1 & Hs & Hl1 & Hd1).
    rewrite (run_calls_cons _ _ _ _ _ _ Hs) in Hrun.
    destruct (run_calls (replace_tag self) ids page1) as [e|[outs1 page2]] eqn:E;
      [discriminate|].
    cbn [bind ok] in Hrun. injection Hrun as <- <-.
    apply (Htrans _ page1); [now apply (Hstep U page out page1 l d)|].
    now apply (IH page1 outs1 page2 l1 d1).
Qed.

(** The same for the substitution in [replace_footnote_tags]. *)
Lemma sub_replace_tag_rel (self : Block) (R : Page -> Page -> Prop) :
  (forall page, R page page) ->
  (forall p1 p2 p3, R p1 p2 -> R p2 p3 -> R p1 p3) ->
  (forall U page out page' l d,
      footnotes_list page = Some l -> footnotes_references page = Some d ->
      replace_tag self U page = ok (out, page') -> R page page') ->
  forall s page out page' l d,
    footnotes_list page = Some l -> footnotes_references page = Some d ->
    Re.sub (replace_tag self) s page = ok (out, page') ->
    R page page'.
Proof.
  intros Hrefl Htrans Hstep s page out page' l d Hl Hd Hsub.
  rewrite sub_as_calls in Hsub.
  destruct (run_calls (replace_tag self) (Re.findall s) page)
    as [e|[outs page1]] eqn:E; [discriminate|].
  cbn [bind ok] in Hsub. injection Hsub as _ <-.
  exact (replace_tags_rel self R Hrefl Htrans Hstep _ _ _ _ l d Hl Hd E).
Qed.

(** The result of [replace_footnote_tags] with a page, taken apart. *)
Lemma replace_footnote_tags_with_page_inv (self : Block) (value : CtxVal)
    (html : Html) (ctx : gmap string CtxVal) (heap : gmap addr Page)
    (l : addr) (page : Page) (out : Html) (self' : Block)
    (heap' : gmap addr Page) :
  ctx !! "page" = Some (CRef l) ->
  heap !! l = Some page ->
  replace_footnote_tags self value html (Some ctx) heap = ok (out, self', heap') ->
  exists s page',
    Re.sub (replace_tag self') (html_text html) (with_attributes page)
      = ok (s, page')
    /\ out = SafeString s
    /\ self' = {| features := features self;
                  footnotes := footnotes_by_uuid (page_footnotes page) |}
    /\ heap' = <[l := page']> heap.
Proof.
  intros Hctx Hheap Hrun.
  rewrite (replace_footnote_tags_with_page _ _ _ _ _ _ _ Hctx Hheap) in Hrun.
  cbv zeta in Hrun.
  destruct (Re.sub _ _ _) as [e|[s page']] eqn:E; [discriminate|].
  cbn [bind ok] in Hrun. injection Hrun as <- <- <-.
  now exists s, page'.
Qed.

(** ** What the rewriter never does *)

(** X1. [replace_footnote_tags] returns normally on every html, context and
    heap: the [KeyError] of an unknown identifier is caught, and neither the
    attribute accesses nor [list.index] can fail after the attributes are
    attached and the footnote appended. *)
Theorem replace_footnote_tags_never_raises (self : Block) (value : CtxVal)
    (html : Html) (context : option (gmap string CtxVal))
    (heap : gmap addr Page) :
  exists out self' heap',
    replace_footnote_tags self value html context heap = ok (out, self', heap').
Proof.
  destruct (context_cases context heap)
    as [Hnp | (ctx & l & page & -> & Hctx & Hheap)].
  - rewrite (replace_footnote_tags_no_page _ _ _ _ _ Hnp). now eexists _, _, _.
  - rewrite (replace_footnote_tags_with_page _ _ _ _ _ _ _ Hctx Hheap).
    cbv zeta.
    match goal with
    | |- context [Re.sub (replace_tag ?b) ?s ?p] =>
        destruct (sub_replace_tag_total b s p _ _ eq_refl eq_refl)
          as (o & page' & ->)
    end.
    now eexists _, _, _.
Qed.

Lemma replace_tag_keeps_footnotes (self : Block) (U : string)
    (page : Page) (out : string) (page' : Page)
    (l : list Footnote) (d : gmap string (list string)) :
  footnotes_list page = Some l -> footnotes_references page = Some d ->
  replace_tag self U page = ok (out, page') ->
  page_footnotes page' = page_footnotes page.
Proof.
  intros Hl Hd Hs.
  destruct (replace_tag_cases self U page l d Hl Hd)
    as [[_ E] | (f & i & _ & _ & E)]; cbv zeta in E;
    rewrite E in Hs; now injection Hs as _ <-.
Qed.

(** X2. The rewriter writes one object only. The features of the block, the
    footnote set of every page, and every page other than the one of the
    context are as before, and no page object appears or disappears. *)
Theorem replace_footnote_tags_frame (self : Block) (value : CtxVal)
    (html : Html) (context : option (gmap string CtxVal))
    (heap : gmap addr Page) (out : Html) (self' : Block)
    (heap' : gmap addr Page) :
  replace_footnote_tags self value html context heap = ok (out, self', heap') ->
  features self' = features self
  /\ (forall l, heap !! l = None -> heap' !! l = None)
  /\ (forall l page,
        heap !! l = Some page ->
        exists page',
          heap' !! l = Some page'
          /\ page_footnotes page' = page_footnotes page)
  /\ (forall ctx l l',
        context = Some ctx -> ctx !! "page" = Some (CRef l) ->
        l' <> l -> heap' !! l' = heap !! l').
Proof.
  intros Hrun.
  destruct (context_cases context heap)
    as [Hnp | (ctx & l & page & -> & Hctx & Hheap)].
  - rewrite (replace_footnote_tags_no_page _ _ _ _ _ Hnp) in Hrun.
    injection Hrun as <- <- <-. repeat split; auto.
    intros l page Hl. now exists page.
  - destruct (replace_footnote_tags_with_page_inv _ _ _ _ _ _ _ _ _ _
                Hctx Hheap Hrun) as (s & page' & Hsub & -> & -> & ->).
    assert (Hfs : page_footnotes page' = page_footnotes page).
    { apply (sub_replace_tag_rel _
               (fun p p' => page_footnotes p' = page_footnotes p))
        with (l := list_of page) (d := references_of page) in Hsub;
        try reflexivity.
      - exact Hsub.
      - intros; congruence.
      - intros U p o p' l0 d0. apply replace_tag_keeps_footnotes. }
    split; [reflexivity|]. split; [|split].
    + intros l0 Hl0. rewrite lookup_insert_ne; [assumption|]. congruence.
    + intros l0 page0 Hl0. destruct (decide (l = l0)) as [<-|Hne].
      * rewrite lookup_insert_eq. exists page'. split; [reflexivity|].
        congruence.
      * rewrite lookup_insert_ne by assumption. now exists page0.
    + intros ctx' l0 l' [= <-] Hc Hne. rewrite Hctx in Hc.
      injection Hc as <-. now rewrite lookup_insert_ne.
Qed.

Lemma replace_footnote_tags_frame_witness :
  features block1 = features (__init__ None)
  /\ (forall l, heap0 !! l = None ->
        (<[1 := with_attributes page0]> heap0) !! l = None)
  /\ (forall l page,
        heap0 !! l = Some page ->
        exists page',
          (<[1 := with_attributes page0]> heap0) !! l = Some page'
          /\ page_footnotes page' = page_footnotes page)
  /\ (forall ctx l l',
        Some ctx0 = Some ctx -> ctx !! "page" = Some (CRef l) ->
        l' <> l ->
        (<[1 := with_attributes page0]> heap0) !! l' = heap0 !! l').
Proof.
  apply (replace_footnote_tags_frame (__init__ None) COther (Str "foo")
           (Some ctx0) heap0 (SafeString "foo")).
  vm_compute. reflexivity.
Defined.

Lemma replace_tag_grows (self : Block) (U : string)
    (page : Page) (out : string) (page' : Page)
    (l : list Footnote) (d : gmap string (list string)) :
  footnotes_list page = Some l -> footnotes_references page = Some d ->
  replace_tag self U page = ok (out, page') ->
  list_of page `prefix_of` list_of page'
  /\ forall V, ids_of page V `prefix_of` ids_of page' V.
Proof.
  intros Hl Hd Hs.
  destruct (replace_tag_cases self U page l d Hl Hd)
    as [[_ E] | (f & i & _ & _ & E)]; cbv zeta in E;
    rewrite E in Hs; injection Hs as _ <-.
  - split; [reflexivity|]. intros V. reflexivity.
  - split.
    + rewrite (list_of_eq _ _ Hl). unfold list_of. simpl.
      destruct (list_contains f l); [reflexivity|]. now apply prefix_app_r.
    + intros V. rewrite (ids_of_eq _ _ _ Hd).
      unfold ids_of, references_of. simpl.
      destruct (decide (U = V)) as [<-|Hne].
      * rewrite lookup_insert_eq. simpl. now apply prefix_app_r.
      * now rewrite lookup_insert_ne.
Qed.

(** X3. Rendering only adds to the page state: the footnote list before
    the call is a prefix of the list after it, and so is the list of anchor
    ids of every identifier. Nothing recorded by an earlier block is removed
    or reordered. *)
Theorem render_state_grows (self : Block) (value : CtxVal)
    (html : Html) (ctx : gmap string CtxVal) (heap : gmap addr Page)
    (l : addr) (page : Page) (out : Html) (self' : Block)
    (heap' : gmap addr Page) :
  ctx !! "page" = Some (CRef l) ->
  heap !! l = Some page ->
  replace_footnote_tags self value html (Some ctx) heap = ok (out, self', heap') ->
  exists page',
    heap' !! l = Some page'
    /\ list_of page `prefix_of` list_of page'
    /\ forall U, ids_of page U `prefix_of` ids_of page' U.
Proof.
  intros Hctx Hheap Hrun.
  destruct (replace_footnote_tags_with_page_inv _ _ _ _ _ _ _ _ _ _
              Hctx Hheap Hrun) as (s & page' & Hsub & -> & -> & ->).
  exists page'. split; [apply lookup_insert_eq|].
  apply (sub_replace_tag_rel _
           (fun p p' => list_of p `prefix_of` list_of p'
                        /\ forall V, ids_of p V `prefix_of` ids_of p' V))
    with (l := list_of page) (d := references_of page) in Hsub;
    try reflexivity.
  - exact Hsub.
  - intros p. split; [reflexivity|]. intros V. reflexivity.
  - intros p1 p2 p3 [H1 H2] [H3 H4]. split; [now transitivity (list_of p2)|].
    intros V. now transitivity (ids_of p2 V).
  - intros U p o p' l0 d0. apply replace_tag_grows.
Qed.

Lemma render_state_grows_witness :
  exists page',
    (<[1 := page_twice]> (<[1 := page_twice]> heap0)) !! 1 = Some page'
    /\ list_of page_twice `prefix_of` list_of page'
    /\ forall U, ids_of page_twice U `prefix_of` ids_of page' U.
Proof.
  apply (render_state_grows (__init__ None) COther (Str "foo") ctx0
           (<[1 := page_twice]> heap0) 1 page_twice (SafeString "foo") block1);
    reflexivity.
Defined.

(** ** Anchor ids *)

Lemma to_uint_nonnil (n : nat) : Nat.to_uint n <> Decimal.Nil.
Proof.
  rewrite <- (DecimalNat.Unsigned.of_to n) at 1.
  rewrite DecimalNat.Unsigned.to_of. apply DecimalFacts.unorm_nonnil.
Qed.

Lemma str_of_nat_inj (n m : nat) : str_of_nat n = str_of_nat m -> n = m.
Proof.
  unfold str_of_nat. intros H.
  apply DecimalNat.Unsigned.to_uint_inj.
  apply (f_equal NilZero.uint_of_string) in H.
  rewrite !NilZero.usu in H by apply to_uint_nonnil. congruence.
Qed.

Lemma digits_no_dash (d : Decimal.uint) :
  has_char "-" (NilEmpty.string_of_uint d) = false.
Proof. induction d; simpl; auto. Qed.

Lemma str_of_nat_no_dash (n : nat) : has_char "-" (str_of_nat n) = false.
Proof.
  unfold str_of_nat, NilZero.string_of_uint.
  destruct (Nat.to_uint n) eqn:E; try apply digits_no_dash. reflexivity.
Qed.

(** Two texts cut at the first occurrence of a character are cut at the
    same place. *)
Lemma split_at_first (c : ascii) (a b a' b' : string) :
  has_char c a = false -> has_char c a' = false ->
  a ++ String c b = a' ++ String c b' -> a = a' /\ b = b'.
Proof.
  revert a'. induction a as [|x a IH]; intros [|y a'] Ha Ha' E; simpl in *.
  - now injection E.
  - injection E as <- _. now rewrite Ascii.eqb_refl in Ha'.
  - injection E as -> _. now rewrite Ascii.eqb_refl in Ha.
  - injection E as <- E. apply orb_false_elim in Ha as [_ Ha].
    apply orb_false_elim in Ha' as [_ Ha'].
    destruct (IH a' Ha Ha' E) as [-> ->]. auto.
Qed.

Lemma anchor_id_injective (index occurrence index' occurrence' : nat) :
  anchor_id index occurrence = anchor_id index' occurrence' ->
  index = index' /\ occurrence = occurrence'.
Proof.
  unfold anchor_id. intros H.
  apply (inj (String.append "footnote-source-")) in H.
  change ("-" ++ str_of_nat occurrence)
    with (String "-" (str_of_nat occurrence)) in H.
  change ("-" ++ str_of_nat occurrence')
    with (String "-" (str_of_nat occurrence')) in H.
  apply split_at_first in H as [Hi Ho]; try apply str_of_nat_no_dash.
  split; now apply str_of_nat_inj.
Qed.

(** X4. The anchor id determines the display index and the occurrence
    number: anchor ids built from different pairs are different. *)
Theorem anchor_id_inj (index occurrence index' occurrence' : nat) :
  (index, occurrence) <> (index', occurrence') ->
  anchor_id index occurrence <> anchor_id index' occurrence'.
Proof.
  intros Hne H. apply anchor_id_injective in H as [-> ->]. now apply Hne.
Qed.

Lemma anchor_id_inj_witness : anchor_id 1 10 <> anchor_id 11 0.
Proof. apply (anchor_id_inj 1 10 11 0). discriminate. Defined.

(** ** The numbering of the anchor ids is kept by every call *)

Lemma numbered_fresh (fns : gmap string Footnote) (page : Page) :
  references_of page = ∅ -> numbered fns page.
Proof. intros H U ids Hl. rewrite H in Hl. discriminate. Qed.

Lemma replace_tag_numbered (self : Block) (U : string)
    (page : Page) (out : string) (page' : Page)
    (l : list Footnote) (d : gmap string (list string)) :
  footnotes_list page = Some l -> footnotes_references page = Some d ->
  replace_tag self U page = ok (out, page') ->
  numbered (footnotes self) page -> numbered (footnotes self) page'.
Proof.
  intros Hl Hd Hs Hnum.
  destruct (replace_tag_cases self U page l d Hl Hd)
    as [[_ E] | (f & i & Hf & Hi & E)]; cbv zeta in *;
    rewrite E in Hs; injection Hs as _ <-; [assumption|].
  unfold numbered in *. unfold references_of, list_of in *.
  rewrite Hl, Hd in Hnum. simpl in *.
  intros V idsV HV. destruct (decide (U = V)) as [<-|Hne].
  - rewrite lookup_insert_eq in HV. injection HV as <-.
    exists f, i. split; [assumption|]. split; [assumption|].
    destruct (d !! U) as [ids0|] eqn:E0; simpl; [|reflexivity].
    destruct (Hnum U ids0 E0) as (f0 & i0 & Hf0 & Hi0 & Hids0).
    rewrite Hf in Hf0. injection Hf0 as <-.
    rewrite (list_index_ok_contains _ _ _ Hi0), Hi0 in Hi. injection Hi as <-.
    rewrite length_app. simpl.
    replace (length ids0 + 1) with (S (length ids0)) by lia.
    rewrite seq_S, map_app. simpl. now rewrite <- Hids0.
  - rewrite lookup_insert_ne in HV by assumption.
    destruct (Hnum V idsV HV) as (g & j & Hg & Hj & Hids).
    exists g, j. split; [assumption|]. split; [|assumption].
    destruct (list_contains f l); [assumption|]. now apply list_index_app_l.
Qed.

Lemma footnotes_by_uuid_Some (fs : list Footnote) (U : string) (f : Footnote) :
  footnotes_by_uuid fs !! U = Some f -> f ∈ fs /\ uuid f = U.
Proof.
  induction fs as [|x fs IH] using rev_ind; [discriminate|].
  rewrite footnotes_by_uuid_snoc. intros H.
  destruct (decide (uuid x = U)) as [Hx|Hx].
  - rewrite <- Hx, lookup_insert_eq in H. injection H as <-.
    split; [|assumption]. apply elem_of_app. right.
    now apply list_elem_of_singleton.
  - rewrite lookup_insert_ne in H by assumption.
    destruct (IH H) as [Hin Hu]. split; [|assumption].
    apply elem_of_app. now left.
Qed.

(** With distinct primary keys, equal footnotes of the dictionary sit under
    one identifier. *)
Lemma footnotes_by_uuid_pk_inj (fs : list Footnote) (U V : string)
    (f g : Footnote) :
  NoDup (map pk fs) ->
  footnotes_by_uuid fs !! U = Some f ->
  footnotes_by_uuid fs !! V = Some g ->
  footnote_eqb f g = true -> U = V.
Proof.
  intros Hnd HU HV Heq.
  apply footnotes_by_uuid_Some in HU as [Hf <-].
  apply footnotes_by_uuid_Some in HV as [Hg <-].
  apply footnote_eqb_pk in Heq.
  apply list_elem_of_lookup in Hf as [a Ha].
  apply list_elem_of_lookup in Hg as [b Hb].
  assert (a = b) as ->.
  { apply (NoDup_lookup (map pk fs) a b (pk f)); [assumption| |].
    - now rewrite list_lookup_fmap, Ha.
    - now rewrite list_lookup_fmap, Hb, Heq. }
  congruence.
Qed.

Lemma numbered_unique (fns : gmap string Footnote) (page : Page) :
  (forall U V f g,
      fns !! U = Some f -> fns !! V = Some g ->
      footnote_eqb f g = true -> U = V) ->
  numbered fns page -> ids_unique page.
Proof.
  intros Hinj Hnum U V i j x HU HV. unfold ids_of in HU, HV.
  destruct (references_of page !! U) as [idsU|] eqn:EU; [|discriminate].
  destruct (references_of page !! V) as [idsV|] eqn:EV; [|discriminate].
  simpl in HU, HV.
  destruct (Hnum U idsU EU) as (f & a & Hf & Ha & HidsU).
  destruct (Hnum V idsV EV) as (g & b & Hg & Hb & HidsV).
  rewrite HidsU in HU. rewrite HidsV in HV.
  rewrite list_lookup_fmap in HU, HV.
  destruct (seq 0 (length idsU) !! i) as [i'|] eqn:Ei; [|discriminate].
  destruct (seq 0 (length idsV) !! j) as [j'|] eqn:Ej; [|discriminate].
  apply lookup_seq in Ei as [-> _]. apply lookup_seq in Ej as [-> _].
  change (Some (anchor_id (a + 1) (0 + i)) = Some x) in HU.
  change (Some (anchor_id (b + 1) (0 + j)) = Some x) in HV.
  assert (Hx : anchor_id (a + 1) (0 + i) = anchor_id (b + 1) (0 + j))
    by congruence.
  apply anchor_id_injective in Hx as [Hab Hij].
  assert (a = b) as -> by lia.
  apply list_index_first in Ha as [(h & Hh & Hhf) _].
  apply list_index_first in Hb as [(h' & Hh' & Hhg) _].
  rewrite Hh in Hh'. injection Hh' as <-.
  split; [|lia]. apply (Hinj U V f g Hf Hg).
  apply (footnote_eqb_trans _ h); [now rewrite footnote_eqb_sym | assumption].
Qed.

(** X5. Anchor ids are unique on the page. When the page's footnotes have
    distinct primary keys and the anchor ids recorded so far are numbered (as
    they are on a page without recorded anchors, and after every render),
    the ids recorded after a render are numbered again and no id occurs
    twice, under one identifier or under two. *)
Theorem anchor_ids_unique (self : Block) (value : CtxVal)
    (html : Html) (ctx : gmap string CtxVal) (heap : gmap addr Page)
    (l : addr) (page : Page) (out : Html) (self' : Block)
    (heap' : gmap addr Page) :
  ctx !! "page" = Some (CRef l) ->
  heap !! l = Some page ->
  NoDup (map pk (page_footnotes page)) ->
  numbered (footnotes_by_uuid (page_footnotes page)) page ->
  replace_footnote_tags self value html (Some ctx) heap = ok (out, self', heap') ->
  exists page',
    heap' !! l = Some page'
    /\ page_footnotes page' = page_footnotes page
    /\ numbered (footnotes_by_uuid (page_footnotes page')) page'
    /\ ids_unique page'.
Proof.
  intros Hctx Hheap Hnd Hnum Hrun.
  destruct (replace_footnote_tags_with_page_inv _ _ _ _ _ _ _ _ _ _
              Hctx Hheap Hrun) as (s & page' & Hsub & -> & -> & ->).
  set (self1 := {| features := _; footnotes := _ |}) in *.
  exists page'. split; [apply lookup_insert_eq|].
  assert (Hboth : page_footnotes page' = page_footnotes (with_attributes page)
                  /\ (numbered (footnotes self1) (with_attributes page) ->
                      numbered (footnotes self1) page')).
  { apply (sub_replace_tag_rel self1
             (fun p p' => page_footnotes p' = page_footnotes p
                          /\ (numbered (footnotes self1) p ->
                              numbered (footnotes self1) p')))
      with (l := list_of page) (d := references_of page) in Hsub;
      try reflexivity.
    - exact Hsub.
    - intros p. split; [reflexivity | auto].
    - intros p1 p2 p3 [H1 H2] [H3 H4]. split; [congruence | auto].
    - intros U p o p' l0 d0 Hl0 Hd0 Hs. split.
      + now apply (replace_tag_keeps_footnotes self1 U p o p' l0 d0).
      + now apply (replace_tag_numbered self1 U p o p' l0 d0). }
  destruct Hboth as [Hfs Hnum']. simpl in Hfs.
  split; [assumption|]. rewrite Hfs.
  assert (Hn : numbered (footnotes_by_uuid (page_footnotes page)) page')
    by (apply Hnum'; exact Hnum).
  split; [assumption|].
  apply (numbered_unique (footnotes_by_uuid (page_footnotes page))); [|assumption].
  intros U V f g. now apply footnotes_by_uuid_pk_inj.
Qed.

Lemma anchor_ids_unique_witness :
  exists page',
    (<[1 := page_twice]> heap0) !! 1 = Some page'
    /\ page_footnotes page' = page_footnotes page0
    /\ numbered (footnotes_by_uuid (page_footnotes page')) page'
    /\ ids_unique page'.
Proof.
  apply (anchor_ids_unique (__init__ None) COther
           (SafeString (html1 ++ html1)) ctx0 heap0 1 page0
           (SafeString
              ("<p>This is a paragraph with a footnote. " ++ anchor 1 0
                 ++ "</p><p>This is a paragraph with a footnote. "
                 ++ anchor 1 1 ++ "</p>"))
           block1).
  - reflexivity.
  - reflexivity.
  - apply NoDup_singleton.
  - now apply numbered_fresh.
  - vm_compute. reflexivity.
Defined.

(** ** How many anchor ids a render records *)

Lemma replace_tags_count (self : Block) (V : string) (ids : list string) :
  forall (page : Page) (outs : list string) (page' : Page)
         (l : list Footnote) (d : gmap string (list string)),
  footnotes_list page = Some l ->
  footnotes_references page = Some d ->
  replace_tags self ids page = ok (outs, page') ->
  length (ids_of page' V) =
    length (ids_of page V)
    + match footnotes self !! V with
      | Some _ => occurrences V ids
      | None => 0
      end.
Proof.
  unfold replace_tags.
  induction ids as [|U ids IH]; intros page outs page' l d Hl Hd Hrun.
  - injection Hrun as <- <-. unfold occurrences. simpl.
    destruct (footnotes self !! V); lia.
  - destruct (replace_tag_total self U page l d Hl Hd)
      as (out & page1 & l1 & d1 & Hs & Hl1 & Hd1).
    rewrite (run_calls_cons _ _ _ _ _ _ Hs) in Hrun.
    destruct (run_calls (replace_tag self) ids page1) as [e|[outs1 page2]] eqn:E;
      [discriminate|].
    cbn [bind ok] in Hrun. injection Hrun as <- <-.
    rewrite (IH page1 outs1 page2 l1 d1 Hl1 Hd1 E).
    destruct (replace_tag_cases self U page l d Hl Hd)
      as [[Hnone E1] | (f & i & Hf & _ & E1)]; cbv zeta in E1;
      rewrite E1 in Hs; injection Hs as _ <-.
    + destruct (decide (U = V)) as [->|Hne].
      * now rewrite Hnone.
      * rewrite (occurrences_cons_ne _ _ _ Hne). reflexivity.
    + rewrite (ids_of_eq _ _ _ Hd). unfold ids_of at 1, references_of. simpl.
      destruct (decide (U = V)) as [->|Hne].
      * rewrite lookup_insert_eq, Hf, occurrences_cons_eq. simpl.
        rewrite length_app. simpl. lia.
      * rewrite lookup_insert_ne, (occurrences_cons_ne _ _ _ Hne) by assumption.
        reflexivity.
Qed.

(** X6. A render records one anchor id per marker of a known identifier
    and none for an unknown one: for every identifier, the length of its
    list of anchor ids grows by the number of matches whose group 1 is that
    identifier if it is a key of the block's footnote dictionary, and stays
    the same otherwise. *)
Theorem reference_count (self : Block) (value : CtxVal)
    (html : Html) (ctx : gmap string CtxVal) (heap : gmap addr Page)
    (l : addr) (page : Page) (out : Html) (self' : Block)
    (heap' : gmap addr Page) :
  ctx !! "page" = Some (CRef l) ->
  heap !! l = Some page ->
  replace_footnote_tags self value html (Some ctx) heap = ok (out, self', heap') ->
  exists page',
    heap' !! l = Some page'
    /\ forall V,
         length (ids_of page' V) =
           length (ids_of page V)
           + match footnotes self' !! V with
             | Some _ => occurrences V (Re.findall (html_text html))
             | None => 0
             end.
Proof.
  intros Hctx Hheap Hrun.
  destruct (replace_footnote_tags_with_page_inv _ _ _ _ _ _ _ _ _ _
              Hctx Hheap Hrun) as (s & page' & Hsub & -> & Hself & ->).
  exists page'. split; [apply lookup_insert_eq|]. intros V.
  rewrite sub_as_calls in Hsub.
  destruct (run_calls (replace_tag self') (Re.findall (html_text html))
              (with_attributes page)) as [e|[outs page1]] eqn:E;
    [discriminate|].
  cbn [bind ok] in Hsub. injection Hsub as _ <-.
  exact (replace_tags_count self' V _ (with_attributes page) outs page1
           (list_of page) (references_of page) eq_refl eq_refl E).
Qed.

Lemma reference_count_witness :
  exists page',
    (<[1 := page_twice]> heap0) !! 1 = Some page'
    /\ forall V,
         length (ids_of page' V) =
           length (ids_of page0 V)
           + match footnotes block1 !! V with
             | Some _ =>
                 occurrences V (Re.findall (html_text (Str (html1 ++ html1))))
             | None => 0
             end.
Proof.
  apply (reference_count (__init__ None) COther (Str (html1 ++ html1)) ctx0
           heap0 1 page0
           (SafeString
              ("<p>This is a paragraph with a footnote. " ++ anchor 1 0
                 ++ "</p><p>This is a paragraph with a footnote. "
                 ++ anchor 1 1 ++ "</p>"))
           block1).
  - reflexivity.
  - reflexivity.
  - vm_compute. reflexivity.
Defined.

(** ** The listed footnotes are the referenced ones *)

Lemma replace_tag_listed (self : Block) (U : string)
    (page : Page) (out : string) (page' : Page)
    (l : list Footnote) (d : gmap string (list string)) :
  footnotes_list page = Some l -> footnotes_references page = Some d ->
  replace_tag self U page = ok (out, page') ->
  (forall V f, footnotes self !! V = Some f ->
               f ∈ page_footnotes page /\ uuid f = V) ->
  listed_are_referenced page -> listed_are_referenced page'.
Proof.
  intros Hl Hd Hs Hdict Hinv.
  destruct (replace_tag_cases self U page l d Hl Hd)
    as [[_ E] | (f & i & Hf & _ & E)]; cbv zeta in E;
    rewrite E in Hs; injection Hs as _ <-; [assumption|].
  destruct (Hdict U f Hf) as [Hfin Hfu].
  unfold listed_are_referenced in *.
  rewrite (list_of_eq _ _ Hl) in Hinv.
  unfold list_of, ids_of, references_of. simpl.
  assert (Hold : forall g, g ∈ l ->
            g ∈ page_footnotes page
            /\ default [] (<[U := (default [] (d !! U)
                                     ++ [anchor_id (i + 1)
                                           (length (default [] (d !! U)))])%list]> d
                             !! uuid g) <> []).
  { intros g Hg. destruct (Hinv g Hg) as [Hgin Hgids]. split; [assumption|].
    destruct (decide (U = uuid g)) as [->|Hne].
    - rewrite lookup_insert_eq. simpl. intros H. now apply app_eq_nil in H as [_ ?].
    - rewrite lookup_insert_ne by assumption.
      now rewrite (ids_of_eq _ _ _ Hd) in Hgids. }
  intros g Hg. destruct (list_contains f l); [now apply Hold|].
  apply elem_of_app in Hg as [Hg|Hg]; [now apply Hold|].
  apply list_elem_of_singleton in Hg as ->. split; [assumption|].
  rewrite Hfu, lookup_insert_eq. simpl.
  intros H. now apply app_eq_nil in H as [_ ?].
Qed.

(** X7. Every footnote the page lists for the footnotes section is one of
    the page's own footnotes and has at least one anchor id recorded under
    its identifier, so the template has a back-link for it. The property
    holds on a page with an empty list and is kept by every render. *)
Theorem listed_footnotes_have_references (self : Block) (value : CtxVal)
    (html : Html) (ctx : gmap string CtxVal) (heap : gmap addr Page)
    (l : addr) (page : Page) (out : Html) (self' : Block)
    (heap' : gmap addr Page) :
  ctx !! "page" = Some (CRef l) ->
  heap !! l = Some page ->
  listed_are_referenced page ->
  replace_footnote_tags self value html (Some ctx) heap = ok (out, self', heap') ->
  exists page', heap' !! l = Some page' /\ listed_are_referenced page'.
Proof.
  intros Hctx Hheap Hinv Hrun.
  destruct (replace_footnote_tags_with_page_inv _ _ _ _ _ _ _ _ _ _
              Hctx Hheap Hrun) as (s & page' & Hsub & -> & -> & ->).
  set (self1 := {| features := _; footnotes := _ |}) in *.
  exists page'. split; [apply lookup_insert_eq|].
  apply (sub_replace_tag_rel self1
           (fun p p' =>
              page_footnotes p' = page_footnotes p
              /\ ((forall V f, footnotes self1 !! V = Some f ->
                               f ∈ page_footnotes p /\ uuid f = V) ->
                  listed_are_referenced p -> listed_are_referenced p')))
    with (l := list_of page) (d := references_of page) in Hsub;
    try reflexivity.
  - destruct Hsub as [_ H]. apply H; [|exact Hinv].
    intros V f. apply footnotes_by_uuid_Some.
  - intros p. split; [reflexivity | auto].
  - intros p1 p2 p3 [H1 H2] [H3 H4]. split; [congruence|].
    intros Hd Hl. apply H4; [|now apply H2].
    intros V f Hf. rewrite H1. now apply Hd.
  - intros U p o p' l0 d0 Hl0 Hd0 Hs. split.
    + now apply (replace_tag_keeps_footnotes self1 U p o p' l0 d0).
    + now apply (replace_tag_listed self1 U p o p' l0 d0).
Qed.

Lemma listed_footnotes_have_references_witness :
  exists page',
    (<[1 := page_twice]> heap0) !! 1 = Some page'
    /\ listed_are_referenced page'.
Proof.
  apply (listed_footnotes_have_references (__init__ None) COther
           (Str (html1 ++ html1)) ctx0 heap0 1 page0
           (SafeString
              ("<p>This is a paragraph with a footnote. " ++ anchor 1 0
                 ++ "</p><p>This is a paragraph with a footnote. "
                 ++ anchor 1 1 ++ "</p>"))
           block1).
  - reflexivity.
  - reflexivity.
  - intros f Hf. inversion Hf.
  - vm_compute. reflexivity.
Defined.

(** ** The filter after a render *)

(** X8. The template filter after a render of a page without recorded
    anchors: for an identifier of the block's dictionary it returns one
    anchor id per marker of that identifier in the html, numbered 0, 1, 2,
    ... under one display index, which is one more than the position of the
    footnote in the page's list; for any other identifier it returns the
    empty list. *)
Theorem filter_after_render (self : Block) (value : CtxVal)
    (html : Html) (ctx : gmap string CtxVal) (heap : gmap addr Page)
    (l : addr) (page : Page) (out : Html) (self' : Block)
    (heap' : gmap addr Page) :
  ctx !! "page" = Some (CRef l) ->
  heap !! l = Some page ->
  references_of page = ∅ ->
  replace_footnote_tags self value html (Some ctx) heap = ok (out, self', heap') ->
  exists page',
    heap' !! l = Some page'
    /\ (forall U f,
          footnotes self' !! U = Some f ->
          exists index,
            (get_reference_ids (TPage page') U).1 =
              map (anchor_id index)
                (seq 0 (occurrences U (Re.findall (html_text html))))
            /\ (0 < occurrences U (Re.findall (html_text html)) ->
                1 <= index /\ first_position f (list_of page') (index - 1)))
    /\ (forall U,
          footnotes self' !! U = None ->
          (get_reference_ids (TPage page') U).1 = []).
Proof.
  intros Hctx Hheap Hfresh Hrun.
  destruct (replace_footnote_tags_with_page_inv _ _ _ _ _ _ _ _ _ _
              Hctx Hheap Hrun) as (s & page' & Hsub & -> & Hself & ->).
  exists page'. split; [apply lookup_insert_eq|].
  rewrite sub_as_calls in Hsub.
  destruct (run_calls (replace_tag self') (Re.findall (html_text html))
              (with_attributes page)) as [e|[outs page1]] eqn:E;
    [discriminate|].
  cbn [bind ok] in Hsub. injection Hsub as _ <-.
  pose proof (fun V => replace_tags_count self' V _ (with_attributes page)
                         outs page1 (list_of page) (references_of page)
                         eq_refl eq_refl E) as Hcount.
  assert (Hnum : numbered (footnotes self') page1).
  { refine (replace_tags_rel self'
              (fun p p' => numbered (footnotes self') p ->
                           numbered (footnotes self') p')
              _ _ _ _ (with_attributes page) outs page1
              (list_of page) (references_of page) eq_refl eq_refl E _).
    - auto.
    - auto.
    - intros U p o p' l0 d0. apply replace_tag_numbered.
    - now apply numbered_fresh. }
  destruct (replace_tags_preserves self' _ (with_attributes page) page1 outs
              (list_of page) (references_of page) eq_refl eq_refl E)
    as [_ Hattr].
  assert (Hget : forall U, (get_reference_ids (TPage page1) U).1 = ids_of page1 U).
  { intros U. rewrite <- Hattr. simpl. unfold DefaultDict.get, ids_of.
    change (references_of (with_attributes page1)) with (references_of page1).
    now destruct (references_of page1 !! U). }
  assert (Hzero : forall U, length (ids_of (with_attributes page) U) = 0).
  { intros U. unfold ids_of.
    change (references_of (with_attributes page)) with (references_of page).
    now rewrite Hfresh. }
  split.
  - intros U f Hf. specialize (Hcount U). rewrite Hf, Hzero in Hcount.
    rewrite Hget. unfold ids_of in *.
    destruct (references_of page1 !! U) as [ids|] eqn:EU; simpl in *.
    + destruct (Hnum U ids EU) as (g & i & Hg & Hi & Hids).
      rewrite Hf in Hg. injection Hg as <-.
      exists (i + 1). rewrite <- Hcount. split; [assumption|].
      intros _. split; [lia|]. replace (i + 1 - 1) with i by lia.
      now apply list_index_first.
    + exists 0. rewrite <- Hcount. split; [reflexivity | lia].
  - intros U Hnone. specialize (Hcount U). rewrite Hnone, Hzero in Hcount.
    rewrite Hget. now destruct (ids_of page1 U).
Qed.

Lemma filter_after_render_witness :
  exists index,
    (get_reference_ids (TPage page_twice) uuid1).1 =
      map (anchor_id index)
        (seq 0 (occurrences uuid1 (Re.findall (html1 ++ html1))))
    /\ (0 < occurrences uuid1 (Re.findall (html1 ++ html1)) ->
        1 <= index /\ first_position fn1 (list_of page_twice) (index - 1)).
Proof.
  destruct (filter_after_render (__init__ None) COther (Str (html1 ++ html1))
              ctx0 heap0 1 page0
              (SafeString
                 ("<p>This is a paragraph with a footnote. " ++ anchor 1 0
                    ++ "</p><p>This is a paragraph with a footnote. "
                    ++ anchor 1 1 ++ "</p>"))
              block1 (<[1 := page_twice]> heap0))
    as (page' & Hp & Hknown & _).
  - reflexivity.
  - reflexivity.
  - reflexivity.
  - vm_compute. reflexivity.
  - injection Hp as <-. apply (Hknown uuid1 fn1). reflexivity.
Defined.

(** ** The numbering rule: a second call and the exceptions *)

(** X9. A display index is stable: calling [process_footnote] again with
    the same identifier on the page it returned gives the same index and
    leaves that page as it is. *)
Theorem process_footnote_stable (self : Block) (footnote_id : string)
    (page page1 : Page) (index : nat) :
  process_footnote self footnote_id page = ok (index, page1) ->
  process_footnote self footnote_id page1 = ok (index, page1).
Proof.
  intros H. unfold process_footnote in H.
  destruct (footnotes self !! footnote_id) as [f|] eqn:Hf; [|discriminate].
  destruct (footnotes_list page) as [l|] eqn:Hl; [|discriminate].
  cbn [bind ok] in H.
  set (l1 := if list_contains f l then l else (l ++ [f])%list) in *.
  destruct (list_index f l1) as [e|i] eqn:Hi; [discriminate|].
  cbn [bind ok] in H. injection H as <- <-.
  exact (process_footnote_present self footnote_id (set_footnotes_list l1 page)
           f l1 i Hf eq_refl Hi).
Qed.

Lemma process_footnote_stable_witness :
  process_footnote block_ab "bbbb" (set_footnotes_list [fn_a; fn_b] page_ab)
    = ok (2, set_footnotes_list [fn_a; fn_b] page_ab).
Proof.
  apply (process_footnote_stable block_ab "bbbb"
           (set_footnotes_list [fn_a] page_ab)).
  reflexivity.
Defined.

(** X10. The exceptions of the numbering rule. [process_footnote] raises
    [KeyError] exactly for an identifier that is not a key of [self.footnotes]
    and otherwise only [AttributeError], when the page has no
    [footnotes_list]; [list.index] never fails. [replace_tag] lets nothing
    out but that [AttributeError] of a page without one of its two
    attributes. *)
Theorem numbering_exceptions (self : Block) (U : string) (page : Page)
    (e : exn) :
  (process_footnote self U page = raise e ->
   (e = KeyError /\ footnotes self !! U = None)
   \/ (e = AttributeError /\ is_Some (footnotes self !! U)
       /\ footnotes_list page = None))
  /\ (footnotes self !! U = None -> process_footnote self U page = raise KeyError)
  /\ (replace_tag self U page = raise e ->
      e = AttributeError /\ is_Some (footnotes self !! U)
      /\ (footnotes_list page = None \/ footnotes_references page = None)).
Proof.
  split; [|split].
  - unfold process_footnote.
    destruct (footnotes self !! U) as [f|] eqn:Hf; cbn [bind ok raise].
    + destruct (footnotes_list page) as [l|] eqn:Hl; cbn [bind ok raise].
      * destruct (list_contains f l) eqn:Hc.
        -- destruct (list_index_contains _ _ Hc) as (i & -> & _). discriminate.
        -- rewrite (list_index_new _ _ Hc). discriminate.
      * intros [= <-]. right. eauto.
    + intros [= <-]. now left.
  - apply process_footnote_unknown.
  - destruct (footnotes self !! U) as [f|] eqn:Hf.
    + destruct (footnotes_list page) as [l|] eqn:Hl.
      * destruct (footnotes_references page) as [d|] eqn:Hd.
        -- destruct (replace_tag_resolved self U page f l d Hf Hl Hd)
             as (i & _ & -> & _). discriminate.
        -- destruct (process_footnote_ok self U page f l Hf Hl)
             as (i & Hstep & _). cbv zeta in Hstep.
           unfold replace_tag. rewrite Hstep. simpl. rewrite Hd.
           intros [= <-]. eauto.
      * unfold replace_tag, process_footnote. rewrite Hf, Hl.
        intros [= <-]. eauto.
    + rewrite (replace_tag_unresolved _ _ _ Hf). discriminate.
Qed.

Lemma numbering_exceptions_witness :
  process_footnote block1 "no-such-id" page0 = raise KeyError
  /\ ((AttributeError = KeyError /\ footnotes block1 !! uuid1 = None)
      \/ (AttributeError = AttributeError /\ is_Some (footnotes block1 !! uuid1)
          /\ footnotes_list page0 = None)).
Proof.
  split.
  - apply (proj1 (proj2 (numbering_exceptions block1 "no-such-id" page0 KeyError))).
    reflexivity.
  - apply (proj1 (numbering_exceptions block1 uuid1 page0 AttributeError)).
    reflexivity.
Defined.

Lemma footnotes_fold_other (fs : list Footnote) (U : string) :
  (forall g, g ∈ fs -> uuid g <> U) ->
  forall acc : gmap string Footnote,
    fold_left (fun d footnote => <[uuid footnote := footnote]> d) fs acc !! U
    = acc !! U.
Proof.
  induction fs as [|x fs IH]; intros H acc; [reflexivity|].
  simpl. rewrite IH.
  - apply lookup_insert_ne, H, list_elem_of_here.
  - intros g Hg. apply H. now apply list_elem_of_further.
Qed.

(** X11. The dictionary built from the page's footnotes: an identifier is
    missing exactly when no footnote of the page has it, a value found under
    an identifier is a footnote of the page with that identifier, and the
    value under an identifier is the last footnote of the sequence that has
    it: of two footnotes with one identifier the later one is kept. *)
Theorem footnotes_by_uuid_spec (fs : list Footnote) (U : string) :
  (footnotes_by_uuid fs !! U = None <-> forall f, f ∈ fs -> uuid f <> U)
  /\ (forall f, footnotes_by_uuid fs !! U = Some f -> f ∈ fs /\ uuid f = U)
  /\ (forall fs1 f fs2,
        fs = (fs1 ++ f :: fs2)%list ->
        uuid f = U ->
        (forall g, g ∈ fs2 -> uuid g <> U) ->
        footnotes_by_uuid fs !! U = Some f).
Proof.
  split; [|split].
  - split; [|apply footnotes_by_uuid_unknown].
    intros Hnone f Hf Hu.
    destruct (footnotes_by_uuid_known fs U) as (g & Hg & _); [now exists f|].
    congruence.
  - intros f. apply footnotes_by_uuid_Some.
  - intros fs1 f fs2 -> <- Hlast. unfold footnotes_by_uuid.
    rewrite fold_left_app. cbn [fold_left].
    rewrite (footnotes_fold_other fs2 (uuid f) Hlast).
    apply lookup_insert_eq.
Qed.

Lemma footnotes_by_uuid_spec_witness :
  footnotes_by_uuid [fn_old; fn_a; fn_b] !! "aaaa" = Some fn_a.
Proof.
  apply (proj2 (proj2 (footnotes_by_uuid_spec [fn_old; fn_a; fn_b] "aaaa"))
           [fn_old] fn_a [fn_b]).
  - reflexivity.
  - reflexivity.
  - intros g Hg. apply list_elem_of_singleton in Hg as ->. discriminate.
Defined.

(** ** What the pattern matches, exactly *)

Lemma has_char_app (c : ascii) (a b : string) :
  has_char c (a ++ b) = has_char c a || has_char c b.
Proof.
  induction a as [|x a IH]; simpl; [reflexivity|].
  now rewrite IH, orb_assoc.
Qed.

Lemma contains_true_split (p s : string) :
  contains p s = true -> exists a b, s = a ++ p ++ b.
Proof.
  induction s as [|c s IH]; rewrite contains_eq; intros H.
  - destruct (strip_prefix p EmptyString) as [r|] eqn:E; [|discriminate].
    apply strip_prefix_Some in E. now exists EmptyString, r.
  - destruct (strip_prefix p (String c s)) as [r|] eqn:E.
    + apply strip_prefix_Some in E. now exists EmptyString, r.
    + destruct (IH H) as (a & b & ->). now exists (String c a), b.
Qed.

Lemma app_eq_cases (x y u v : string) :
  x ++ u = y ++ v -> (exists z, y = x ++ z) \/ (exists z, x = y ++ z).
Proof.
  revert y. induction x as [|c x IH]; intros y H.
  - left. now exists y.
  - destruct y as [|d y].
    + right. now exists (String c x).
    + simpl in H. injection H as <- H.
      destruct (IH y H) as [[z ->]|[z ->]]; [left | right]; now exists z.
Qed.

(** The lazy star stops at the first place where the rest matches: what it
    returns, and that no earlier place would do. *)
Lemma lazy_dots_exact {R : Type} (k : string -> option R) (s g : string)
    (r : R) :
  Re.lazy_dots k s = Some (g, r) ->
  exists t,
    s = g ++ t /\ k t = Some r /\ has_char newline g = false
    /\ forall a b, g = a ++ b -> b <> EmptyString -> k (b ++ t) = None.
Proof.
  revert g. induction s as [|c s IH]; intros g H; rewrite lazy_dots_eq in H.
  - destruct (k EmptyString) eqn:E; [|discriminate].
    injection H as <- <-. exists EmptyString. repeat split; auto.
    intros [|x a] b Hab Hb; simpl in Hab; congruence.
  - destruct (k (String c s)) eqn:E.
    + injection H as <- <-. exists (String c s). repeat split; auto.
      intros [|x a] b Hab Hb; simpl in Hab; congruence.
    + destruct (is_newline c) eqn:Hc; [discriminate|].
      destruct (Re.lazy_dots k s) as [[g' r']|] eqn:E'; [|discriminate].
      injection H as <- <-.
      destruct (IH g' eq_refl) as (t & -> & Hk & Hg & Hmin).
      exists t. rewrite is_newline_has_char, Hc, Hg.
      repeat split; auto.
      intros [|x a] b Hab Hb; simpl in Hab.
      * now subst b.
      * injection Hab as <- Hab. now apply (Hmin a b).
Qed.

Lemma after_group_exact (s rest : string) :
  Re.after_group s = Some rest ->
  exists label,
    s = Re.middle ++ label ++ Re.closer ++ rest
    /\ has_char newline label = false
    /\ contains Re.closer label = false.
Proof.
  unfold Re.after_group. intros H.
  destruct (strip_prefix Re.middle s) as [s1|] eqn:E1; [|discriminate].
  destruct (Re.lazy_dots _ s1) as [[label r]|] eqn:E2; [|discriminate].
  injection H as ->.
  apply lazy_dots_exact in E2 as (t & -> & Hc & Hl & Hmin).
  apply strip_prefix_Some in Hc as ->. apply strip_prefix_Some in E1 as ->.
  exists label. split; [reflexivity|]. split; [assumption|].
  destruct (contains Re.closer label) eqn:Hcl; [|reflexivity].
  apply contains_true_split in Hcl as (a & b & ->).
  specialize (Hmin a (Re.closer ++ b) eq_refl ltac:(discriminate)).
  now rewrite append_assoc, strip_prefix_app in Hmin.
Qed.

Lemma match_here_exact (s g rest : string) :
  Re.match_here s = Some (g, rest) ->
  exists label,
    s = marker g label ++ rest
    /\ has_char newline g = false
    /\ contains Re.middle g = false
    /\ has_char newline label = false
    /\ contains Re.closer label = false.
Proof.
  unfold Re.match_here. intros H.
  destruct (strip_prefix Re.opener s) as [s1|] eqn:E1; [|discriminate].
  apply lazy_dots_exact in H as (t & -> & Hk & Hg & Hmin).
  apply after_group_exact in Hk as (label & -> & Hl & Hcl).
  apply strip_prefix_Some in E1 as ->.
  exists label. rewrite marker_app. split; [reflexivity|].
  split; [assumption|]. split; [|auto].
  destruct (contains Re.middle g) eqn:Hm; [|reflexivity].
  apply contains_true_split in Hm as (a & b & ->).
  specialize (Hmin a (Re.middle ++ b) eq_refl ltac:(discriminate)).
  rewrite !has_char_app in Hg.
  apply orb_false_elim in Hg as [_ Hg]. apply orb_false_elim in Hg as [_ Hb].
  destruct (after_group_complete (b ++ Re.middle ++ label) rest) as [r Hr].
  { rewrite !has_char_app, Hb, Hl. reflexivity. }
  rewrite ?append_assoc in Hmin. rewrite ?append_assoc in Hr. congruence.
Qed.

(** X12. A match of the pattern at the start of a text is exactly a marker
    followed by the rest of the text: group 1 is the identifier, it has no
    line feed and does not contain the closing quote with [>], and the label
    has no line feed and does not contain the closing tag. The first closing
    delimiters win. *)
Theorem match_here_iff (s g rest : string) :
  Re.match_here s = Some (g, rest) <->
  exists label,
    s = marker g label ++ rest
    /\ has_char newline g = false
    /\ contains Re.middle g = false
    /\ has_char newline label = false
    /\ contains Re.closer label = false.
Proof.
  split; [apply match_here_exact|].
  intros (label & -> & Hg & Hm & Hl & Hc). now apply match_here_marker.
Qed.

Lemma match_here_iff_witness :
  Re.match_here
    (marker "a" "b" ++ "</footnote> and " ++ marker "c" "d")
  = Some ("a", "</footnote> and " ++ marker "c" "d").
Proof.
  apply (proj2 (match_here_iff _ "a" _)).
  exists "b". repeat split; reflexivity.
Defined.

(** ** A label that spans lines *)

Lemma opener_needs_lt (c : ascii) (s : string) :
  c <> "<"%char -> Re.match_here (String c s) = None.
Proof.
  intros Hc. unfold Re.match_here.
  change Re.opener with (String "<" ("footnote id=" ++ dq)).
  cbn [strip_prefix].
  destruct (Ascii.eqb_spec "<" c) as [<-|_]; [congruence | reflexivity].
Qed.

Lemma search_no_opener (s : string) :
  contains Re.opener s = false -> Re.search s = false.
Proof.
  induction s as [|c s IH]; intros H; rewrite contains_eq in H;
    rewrite search_eq; unfold Re.match_here.
  - now destruct (strip_prefix Re.opener EmptyString).
  - destruct (strip_prefix Re.opener (String c s)); [discriminate | auto].
Qed.

Lemma search_skip (a b : string) :
  (forall x y, a = x ++ y -> y <> EmptyString -> Re.match_here (y ++ b) = None) ->
  Re.search (a ++ b) = Re.search b.
Proof.
  induction a as [|c a IH]; intros H; [reflexivity|].
  change (String c a ++ b) with (String c (a ++ b)).
  rewrite search_eq.
  change (String c (a ++ b)) with (String c a ++ b).
  rewrite (H EmptyString (String c a)) by (reflexivity || discriminate).
  apply IH. intros x y -> Hy. now apply (H (String c x) y).
Qed.

(** At the opening tag of a marker whose label has a line feed, with no
    closing tag before the end of the label, the pattern does not match. *)
Lemma match_here_multiline (U L rest : string) :
  has_char newline L = true ->
  contains Re.closer (U ++ Re.middle ++ L) = false ->
  Re.match_here (marker U L ++ rest) = None.
Proof.
  intros Hnl Hcl.
  destruct (Re.match_here (marker U L ++ rest)) as [[g r]|] eqn:E;
    [|reflexivity].
  exfalso. apply match_here_sound in E as (lab & E & Hg & Hlab).
  rewrite !marker_app in E. apply (inj (String.append Re.opener)) in E.
  assert (E' : (U ++ Re.middle ++ L) ++ Re.closer ++ rest
               = (g ++ Re.middle ++ lab) ++ Re.closer ++ r)
    by now rewrite !append_assoc.
  assert (Hx : has_char newline (g ++ Re.middle ++ lab) = false)
    by now rewrite !has_char_app, Hg, Hlab.
  assert (Hy : has_char newline (U ++ Re.middle ++ L) = true).
  { rewrite !has_char_app, Hnl. now rewrite !orb_true_r. }
  destruct (app_eq_cases _ _ _ _ E') as [[z Hz]|[z Hz]].
  - rewrite Hz, has_char_app, Hy in Hx. discriminate.
  - destruct z as [|c z].
    + rewrite append_nil_r in Hz. rewrite Hz, Hx in Hy. discriminate.
    + rewrite Hz, append_assoc in E'.
      apply (inj (String.append (g ++ Re.middle ++ lab))) in E'.
      rewrite Hz in Hcl.
      change Re.closer with (String "<" "/footnote>") in *.
      pose proof (strip_prefix_straddle "<" "/footnote>"
                    (g ++ Re.middle ++ lab) (String c z) rest eq_refl Hcl
                    ltac:(discriminate)) as Hnone.
      rewrite E', strip_prefix_app in Hnone. discriminate.
Qed.

Lemma search_false_text_unchanged (self : Block) (value : CtxVal)
    (html : Html) (context : option (gmap string CtxVal))
    (heap : gmap addr Page) :
  Re.search (html_text html) = false ->
  exists out self' heap',
    replace_footnote_tags self value html context heap = ok (out, self', heap')
    /\ html_text out = html_text html.
Proof.
  intros Hno.
  destruct (context_cases context heap)
    as [Hnp | (ctx & l & page & -> & Hctx & Hheap)].
  - rewrite (replace_footnote_tags_no_page _ _ _ _ _ Hnp). now eexists _, _, _.
  - rewrite (replace_footnote_tags_with_page _ _ _ _ _ _ _ Hctx Hheap).
    cbv zeta. rewrite (sub_no_marker _ _ _ Hno). now eexists _, _, _.
Qed.

(** X13. A marker whose label contains a line feed is not rewritten, even
    for a known identifier: the pattern is compiled without a flag, so its
    dot stops at the line feed. When no closing tag comes before the end of
    the label and no other opening tag is in the text, the html comes back
    with the marker in it. *)
Theorem multiline_label_not_rewritten (self : Block) (value : CtxVal)
    (html : Html) (context : option (gmap string CtxVal))
    (heap : gmap addr Page) (pre U L post : string) :
  html_text html = pre ++ marker U L ++ post ->
  contains Re.opener pre = false ->
  has_char newline L = true ->
  contains Re.closer (U ++ Re.middle ++ L) = false ->
  contains Re.opener (U ++ Re.middle ++ L ++ Re.closer ++ post) = false ->
  exists out self' heap',
    replace_footnote_tags self value html context heap = ok (out, self', heap')
    /\ html_text out = html_text html.
Proof.
  intros Htext Hpre Hnl Hcl Hop.
  apply search_false_text_unchanged. rewrite Htext.
  rewrite search_skip.
  - rewrite search_eq, (match_here_multiline _ _ _ Hnl Hcl), marker_app.
    change (Re.opener ++ U ++ Re.middle ++ L ++ Re.closer ++ post)
      with (String "<" (("footnote id=" ++ dq)
                          ++ U ++ Re.middle ++ L ++ Re.closer ++ post)).
    cbv iota. rewrite search_skip; [now apply search_no_opener|].
    intros x [|c y] E Hy; [congruence|].
    apply opener_needs_lt. intros ->.
    assert (H : has_char "<" ("footnote id=" ++ dq) = false) by reflexivity.
    rewrite E, has_char_app in H. simpl in H. now rewrite orb_true_r in H.
  - intros x y -> Hy. unfold Re.match_here. rewrite marker_app.
    change Re.opener with (String "<" ("footnote id=" ++ dq)) in *.
    now rewrite (strip_prefix_straddle "<" _ x y).
Qed.

Lemma multiline_label_not_rewritten_witness :
  exists out self' heap',
    replace_footnote_tags block1 COther
      (Str ("<p>" ++ marker uuid1 ("[f2" ++ String newline "91]") ++ "</p>"))
      (Some ctx0) heap0 = ok (out, self', heap')
    /\ html_text out =
         "<p>" ++ marker uuid1 ("[f2" ++ String newline "91]") ++ "</p>".
Proof.
  apply (multiline_label_not_rewritten block1 COther
           (Str ("<p>" ++ marker uuid1 ("[f2" ++ String newline "91]") ++ "</p>"))
           (Some ctx0) heap0 "<p>" uuid1 ("[f2" ++ String newline "91]") "</p>");
    reflexivity.
Defined.

(** ** Two markers in one fragment *)

(** X14. Html with two markers for two different identifiers of the page,
    rendered on a page without recorded state whose footnotes have distinct
    primary keys: the first marker becomes the anchor with index 1 and the
    second the anchor with index 2, both with occurrence 0, and the text
    before, between and after them is kept. The order in the text decides,
    not the order of the footnote set. *)
Theorem two_markers_in_order (self : Block) (value : CtxVal) (html : Html)
    (ctx : gmap string CtxVal) (heap : gmap addr Page) (l : addr)
    (page : Page) (pre U1 L1 mid U2 L2 post : string) :
  html_text html = pre ++ marker U1 L1 ++ mid ++ marker U2 L2 ++ post ->
  ctx !! "page" = Some (CRef l) ->
  heap !! l = Some page ->
  list_of page = [] ->
  references_of page = ∅ ->
  NoDup (map pk (page_footnotes page)) ->
  U1 <> U2 ->
  (exists f, f ∈ page_footnotes page /\ uuid f = U1) ->
  (exists f, f ∈ page_footnotes page /\ uuid f = U2) ->
  contains Re.opener pre = false ->
  contains Re.opener mid = false ->
  ~ has_marker post ->
  has_char newline U1 = false /\ contains Re.middle U1 = false ->
  has_char newline L1 = false /\ contains Re.closer L1 = false ->
  has_char newline U2 = false /\ contains Re.middle U2 = false ->
  has_char newline L2 = false /\ contains Re.closer L2 = false ->
  exists self' heap',
    replace_footnote_tags self value html (Some ctx) heap =
      ok (SafeString (pre ++ anchor 1 0 ++ mid ++ anchor 2 0 ++ post),
          self', heap').
Proof.
  intros Htext Hctx Hheap Hlist Hrefs Hnd Hne Hk1 Hk2 Hpre Hmid Hpost
    [HU1 HU1'] [HL1 HL1'] [HU2 HU2'] [HL2 HL2'].
  rewrite (replace_footnote_tags_with_page _ _ _ _ _ _ _ Hctx Hheap).
  cbv zeta. set (self1 := {| features := _; footnotes := _ |}).
  destruct (footnotes_by_uuid_known _ _ Hk1) as (g1 & Hg1 & _ & _).
  destruct (footnotes_by_uuid_known _ _ Hk2) as (g2 & Hg2 & _ & _).
  assert (Hdiff : footnote_eqb g1 g2 = false).
  { destruct (footnote_eqb g1 g2) eqn:E; [|reflexivity].
    now destruct (Hne (footnotes_by_uuid_pk_inj _ _ _ _ _ Hnd Hg1 Hg2 E)). }
  rewrite Htext, sub_before_marker by assumption.
  rewrite (sub_match _ _ U1 (mid ++ marker U2 L2 ++ post))
    by (now apply match_here_marker).
  destruct (replace_tag_resolved self1 U1 (with_attributes page) g1
              (list_of page) (references_of page) Hg1 eq_refl eq_refl)
    as (i1 & Hi1 & Hstep1 & _).
  cbv zeta in Hi1, Hstep1. rewrite Hlist in Hi1, Hstep1.
  rewrite Hrefs in Hstep1. simpl in Hi1. rewrite footnote_eqb_refl in Hi1. injection Hi1 as <-.
  rewrite lookup_empty in Hstep1. simpl in Hstep1.
  change (list_contains g1 []) with false in Hstep1. cbv iota in Hstep1.
  rewrite Hstep1. cbn [bind ok].
  rewrite sub_before_marker by assumption.
  rewrite (sub_match _ _ U2 post) by (now apply match_here_marker).
  match goal with
  | |- context [replace_tag self1 U2 ?p] =>
      destruct (replace_tag_resolved self1 U2 p g2 [g1]
                  (<[U1 := [anchor_id 1 0]]> ∅) Hg2 eq_refl eq_refl)
        as (i2 & Hi2 & Hstep2 & _)
  end.
  cbv zeta in Hi2, Hstep2.
  assert (Hc : list_contains g2 [g1] = false).
  { unfold list_contains. simpl. now rewrite Hdiff. }
  rewrite Hc in Hi2, Hstep2. simpl in Hi2.
  rewrite Hdiff, footnote_eqb_refl in Hi2. injection Hi2 as <-.
  rewrite lookup_insert_ne, lookup_empty in Hstep2 by assumption.
  simpl in Hstep2. rewrite Hstep2. cbn [bind ok].
  apply search_false in Hpost. rewrite (sub_no_marker _ _ _ Hpost).
  cbn [bind ok]. now eexists _, _.
Qed.

Lemma two_markers_in_order_witness :
  exists self' heap',
    replace_footnote_tags (__init__ None) COther
      (Str ("<p>" ++ marker "aaaa" "[a]" ++ " and " ++ marker "bbbb" "[b]"
              ++ "</p>"))
      (Some ctx0) {[ 1 := mkPage [fn_b; fn_a] None None ]} =
      ok (SafeString ("<p>" ++ anchor 1 0 ++ " and " ++ anchor 2 0 ++ "</p>"),
          self', heap').
Proof.
  apply (two_markers_in_order (__init__ None) COther
           (Str ("<p>" ++ marker "aaaa" "[a]" ++ " and " ++ marker "bbbb" "[b]"
                   ++ "</p>"))
           ctx0 {[ 1 := mkPage [fn_b; fn_a] None None ]} 1
           (mkPage [fn_b; fn_a] None None)
           "<p>" "aaaa" "[a]" " and " "bbbb" "[b]" "</p>");
    try reflexivity; try (split; reflexivity).
  - apply (proj1 (bool_decide_spec _)). reflexivity.
  - discriminate.
  - exists fn_a. split; [|reflexivity].
    apply list_elem_of_further, list_elem_of_here.
  - exists fn_b. split; [|reflexivity]. apply list_elem_of_here.
  - apply search_false. reflexivity.
Defined.

(** ** Two blocks of one page *)

Lemma two_blocks_as_calls_witness :
  let block_a := __init__ (Some ["bold"]) in
  let block_b := __init__ None in
  let html_a := Str ("<p>" ++ marker "aaaa" "[a]" ++ "</p>") in
  let html_b :=
    Str ("<p>" ++ marker "bbbb" "[b]" ++ marker "aaaa" "[a]" ++ "</p>") in
  let heap := {[ 1 := mkPage [fn_b; fn_a] None None ]} in
  exists outs_a outs_b page' self_a' self_b' heap1 heap2,
    replace_footnote_tags block_a COther html_a (Some ctx0) heap =
      ok (SafeString (splice (html_text html_a) outs_a), self_a', heap1)
    /\ replace_footnote_tags block_b COther html_b (Some ctx0) heap1 =
         ok (SafeString (splice (html_text html_b) outs_b), self_b', heap2)
    /\ replace_tags
         {| features := features block_a;
            footnotes := footnotes_by_uuid [fn_b; fn_a] |}
         (Re.findall (html_text html_a) ++ Re.findall (html_text html_b))
         (with_attributes (mkPage [fn_b; fn_a] None None))
       = ok ((outs_a ++ outs_b)%list, page')
    /\ heap2 !! 1 = Some page'.
Proof.
  intros block_a block_b html_a html_b heap.
  apply (two_blocks_as_calls block_a block_b COther html_a html_b ctx0 heap 1
           (mkPage [fn_b; fn_a] None None));
    reflexivity.
Defined.

(** ** Rendering outside a page *)

(** X16. Outside a page context [render] returns what the parent class
    renders, unchanged and without touching the block or any page: the html
    of the template when one is configured, the html of the basic rendering
    when none is. [render_basic] returns the basic rendering. *)
Theorem render_outside_page
    (get_template :
       CtxVal -> option (gmap string CtxVal) -> gmap addr Page -> bool)
    (super_render super_render_basic :
       CtxVal -> option (gmap string CtxVal) -> gmap addr Page -> Html)
    (self : Block) (value : CtxVal) (context : option (gmap string CtxVal))
    (heap : gmap addr Page) :
  no_page context heap ->
  render get_template super_render super_render_basic self value context heap
    = ok (if get_template value context heap
          then super_render value context heap
          else super_render_basic value context heap,
          self, heap)
  /\ render_basic super_render_basic self value context heap
     = ok (super_render_basic value context heap, self, heap).
Proof.
  intros Hnp. unfold render, render_basic. cbv zeta.
  destruct (get_template value context heap); simpl;
    now rewrite !(replace_footnote_tags_no_page _ _ _ _ _ Hnp).
Qed.

Lemma render_outside_page_witness :
  render (fun _ _ _ => false) (fun _ _ _ => Str "template")
    (fun _ _ _ => SafeString html1) block1 COther None heap0
    = ok (SafeString html1, block1, heap0)
  /\ render_basic (fun _ _ _ => SafeString html1) block1 COther None heap0
     = ok (SafeString html1, block1, heap0).
Proof.
  apply (render_outside_page (fun _ _ _ => false) (fun _ _ _ => Str "template")
           (fun _ _ _ => SafeString html1) block1 COther None heap0).
  intros ctx l H. discriminate.
Defined.
